(** * MTGTop8 URL scraper: a shallow embedding of [MTGTop8URLScraper]

    The scraper drives a browser session, walks the result pages of a
    tournament site, follows every event link and writes one CSV row per
    deck.  The browser is modelled by what its queries return on the loaded
    document; every browser call may raise, so a query result is an
    [outcome].  Python exceptions and the [try]/[except] blocks of the source
    are kept as they are written.  Logging and [time.sleep] have no effect on
    the values computed and are left out. *)

From Stdlib Require Import ZArith Ascii String DecimalString Sorted.
From stdpp Require Import base option list strings gmap.

Open Scope string_scope.
Open Scope list_scope.

#[global] Set Warnings "-clear-no-such-hyp".

(** ** Python strings

    A string is a sequence of one-byte characters.  The helpers below follow
    the Python operations the source applies to text on the ASCII range. *)
Module PyStr.

(** [needle in hay] *)
Fixpoint contains (needle hay : string) : bool :=
  String.prefix needle hay ||
  match hay with
  | EmptyString => false
  | String _ rest => contains needle rest
  end.

Definition is_upper (c : ascii) : bool :=
  (65 <=? nat_of_ascii c)%nat && (nat_of_ascii c <=? 90)%nat.

Definition lower_char (c : ascii) : ascii :=
  if is_upper c then ascii_of_nat (nat_of_ascii c + 32) else c.

(** [s.lower()] *)
Fixpoint lower (s : string) : string :=
  match s with
  | EmptyString => EmptyString
  | String c rest => String (lower_char c) (lower rest)
  end.

(** The characters [str.strip()] removes: tab, line feed, vertical tab,
    form feed, carriage return, the four separators 28..31 and space. *)
Definition is_space (c : ascii) : bool :=
  let n := nat_of_ascii c in
  ((9 <=? n)%nat && (n <=? 13)%nat) || ((28 <=? n)%nat && (n <=? 32)%nat).

Fixpoint lstrip (s : string) : string :=
  match s with
  | EmptyString => EmptyString
  | String c rest => if is_space c then lstrip rest else s
  end.

(** Drops the trailing white space: a character is kept when something
    that is not white space follows it or it is not white space itself. *)
Fixpoint rstrip (s : string) : string :=
  match s with
  | EmptyString => EmptyString
  | String c rest =>
      match rstrip rest with
      | EmptyString => if is_space c then EmptyString else String c EmptyString
      | kept => String c kept
      end
  end.

(** [s.strip()] *)
Definition strip (s : string) : string := rstrip (lstrip s).

Definition is_digit (c : ascii) : bool :=
  (48 <=? nat_of_ascii c)%nat && (nat_of_ascii c <=? 57)%nat.

(** [str(n)] and the [{n}] of an f-string, for a non-negative integer. *)
Definition of_Z (n : Z) : string := NilZero.string_of_uint (N.to_uint (Z.to_N n)).

(** Truth value of a string: [not s] holds for the empty string only. *)
Definition truthy (s : string) : bool :=
  match s with EmptyString => false | String _ _ => true end.

(** Truth value of [s] when [s] may be [None]. *)
Definition truthy_opt (s : option string) : bool :=
  match s with None => false | Some s => truthy s end.

(** [s or ""] *)
Definition or_empty (s : option string) : string := default "" s.

(** [re.search(r'\d{2}/\d{2}/\d{2}', s)]: the first substring made of two
    digits, a slash, two digits, a slash and two digits. *)
Definition date_here (s : string) : option string :=
  match s with
  | String d1 (String d2 (String s1 (String d3 (String d4
      (String s2 (String d5 (String d6 _))))))) =>
      if is_digit d1 && is_digit d2 && Ascii.eqb s1 "/" &&
         is_digit d3 && is_digit d4 && Ascii.eqb s2 "/" &&
         is_digit d5 && is_digit d6
      then Some (String d1 (String d2 (String s1 (String d3 (String d4
             (String s2 (String d5 (String d6 EmptyString))))))))
      else None
  | _ => None
  end.

Fixpoint search_date (s : string) : option string :=
  match date_here s with
  | Some d => Some d
  | None =>
      match s with
      | EmptyString => None
      | String _ rest => search_date rest
      end
  end.

End PyStr.

(** ** Exceptions *)

Inductive exn : Type :=
  | BrowserFault               (* any exception raised by a browser call *)
  | UnboundLocalError (name : string).

Inductive outcome (A : Type) : Type :=
  | Ok (a : A)
  | Raised (e : exn).
Arguments Ok {A} a.
Arguments Raised {A} e.

Global Instance outcome_ret : MRet outcome := fun A a => Ok a.
Global Instance outcome_bind : MBind outcome := fun A B f m =>
  match m with
  | Ok a => f a
  | Raised e => Raised e
  end.
Global Instance outcome_fmap : FMap outcome := fun A B f m =>
  match m with
  | Ok a => Ok (f a)
  | Raised e => Raised e
  end.

(** [try: m except: handler] *)
Definition try_except {A : Type} (m : outcome A) (handler : exn -> A) : A :=
  match m with
  | Ok a => a
  | Raised e => handler e
  end.

(** ** Data model *)

(** [{'name': ..., 'url': ...}] *)
Record EventLink : Type := mkEventLink {
  name : string;
  url : string
}.

(** [{'position': ..., 'deck_name': ..., 'player': ..., 'deck_url': ...}] *)
Record Deck : Type := mkDeck {
  position : Z;
  deck_name : string;
  player : string;
  deck_url : string
}.

(** The dictionary built at the end of [extract_event_data]. *)
Record EventRecord : Type := mkEventRecord {
  event_name : string;
  date : string;
  event_url : string;
  total_decks : Z;
  decks : list Deck
}.

Global Instance EventLink_eq_dec : EqDecision EventLink.
Proof. solve_decision. Defined.
Global Instance Deck_eq_dec : EqDecision Deck.
Proof. solve_decision. Defined.
Global Instance EventRecord_eq_dec : EqDecision EventRecord.
Proof. solve_decision. Defined.

(** ** Removing duplicates (the end of the pagination part of
    [scrape_from_url]) *)

(** One turn of [for i, event in enumerate(all_event_links)]: the state is
    [(unique_events, seen_urls)]. *)
Definition dedup_step (st : list EventLink * gset string) (event : EventLink)
    : list EventLink * gset string :=
  let '(unique_events, seen_urls) := st in
  if decide (url event ∈ seen_urls)
  then (unique_events, seen_urls)
  else (unique_events ++ [event], seen_urls ∪ {[url event]}).

Definition dedup_loop (all_event_links : list EventLink)
    (st : list EventLink * gset string) : list EventLink * gset string :=
  foldl dedup_step st all_event_links.

Definition deduplicate (all_event_links : list EventLink) : list EventLink :=
  fst (dedup_loop all_event_links ([], ∅)).


(** ** What the browser reports

    The loaded document is seen through the queries the source makes.  An
    anchor carries what the selectors test (the markup) and what the element
    methods return (each call may raise). *)

Record Anchor : Type := mkAnchor {
  href_attr : option string;        (* the href attribute, as selectors see it *)
  text_node : option string;        (* first text-node child: XPath text() *)
  a_text : outcome string;          (* element.text *)
  a_href : outcome (option string); (* element.get_attribute('href') *)
  a_class : outcome (option string);(* element.get_attribute('class') *)
  a_enabled : outcome bool          (* element.is_enabled() *)
}.

(** A [table.Stable] element: [table.find_elements] over its anchors. *)
Record Table : Type := mkTable {
  table_anchors : outcome (list Anchor)
}.

(** A [div.Nav_norm] element. *)
Record NavDiv : Type := mkNavDiv {
  nav_anchors : outcome (list Anchor);
  nav_text : outcome string
}.

Record Page : Type := mkPage {
  scroll_to_bottom : outcome unit;         (* execute_script("window.scrollTo...") *)
  stable_tables : outcome (list Table);    (* find_elements(CSS, "table.Stable") *)
  structure_probe : outcome unit;          (* the browser calls of the debug block
                                              run on a page without events *)
  nav_divs : outcome (list NavDiv);        (* find_elements(CSS, "div.Nav_norm") *)
  anchors : outcome (list Anchor);         (* document-wide search over a-elements *)
  current_url : outcome string;            (* driver.current_url *)
  page_source : outcome string             (* driver.page_source *)
}.

(** The browser session: a state [World], the document it shows, and the two
    calls that change it.  Both return the new state and whether they
    raised. *)
Record Browser (World : Type) : Type := mkBrowser {
  loaded : World -> Page;
  get : World -> string -> World * outcome unit;   (* driver.get(url) *)
  click : World -> Anchor -> World * outcome unit  (* execute_script("arguments[0].click();", el) *)
}.
Arguments loaded {World} _ _.
Arguments get {World} _ _ _.
Arguments click {World} _ _ _.

(** ** Selectors *)
Module Selector.

Definition attr_contains (needle : string) (attr : option string) : bool :=
  match attr with
  | None => false
  | Some v => PyStr.contains needle v
  end.

(** CSS [a[href*='event?e=']] *)
Definition event_link (a : Anchor) : bool := attr_contains "event?e=" (href_attr a).

(** CSS [a[href*='&d=']] *)
Definition deck_link (a : Anchor) : bool := attr_contains "&d=" (href_attr a).

(** XPath white space: space, tab, line feed, carriage return. *)
Definition is_xml_space (c : ascii) : bool :=
  let n := nat_of_ascii c in
  (n =? 32)%nat || (n =? 9)%nat || (n =? 10)%nat || (n =? 13)%nat.

Fixpoint skip_xml_space (s : string) : string :=
  match s with
  | EmptyString => EmptyString
  | String c rest => if is_xml_space c then skip_xml_space rest else s
  end.

(** Inner runs of white space become one space, a trailing run is dropped. *)
Fixpoint squeeze (s : string) : string :=
  match s with
  | EmptyString => EmptyString
  | String c rest =>
      if is_xml_space c then
        match rest with
        | EmptyString => EmptyString
        | String c' _ => if is_xml_space c' then squeeze rest else String " " (squeeze rest)
        end
      else String c (squeeze rest)
  end.

(** XPath [normalize-space(.)] *)
Definition normalize_space (s : string) : string := squeeze (skip_xml_space s).

(** XPath [text()] used as a string: the first text node, or the empty
    string when there is none. *)
Definition xpath_text (a : Anchor) : string := PyStr.or_empty (text_node a).

(** [.//a[contains(text(), 'Next') or contains(text(), 'next') or contains(text(), 'NEXT')]] *)
Definition next_link (a : Anchor) : bool :=
  PyStr.contains "Next" (xpath_text a) ||
  PyStr.contains "next" (xpath_text a) ||
  PyStr.contains "NEXT" (xpath_text a).

(** [//a[normalize-space(text())='{next_page_num}']] *)
Definition page_text (next_page_num : Z) (a : Anchor) : bool :=
  String.eqb (normalize_space (xpath_text a)) (PyStr.of_Z next_page_num).

(** [//a[contains(@href, 'cp={next_page_num}')]] *)
Definition page_cp (next_page_num : Z) (a : Anchor) : bool :=
  attr_contains ("cp=" ++ PyStr.of_Z next_page_num)%string (href_attr a).

(** [//a[contains(@href, '&cp={n}') or contains(@href, '?cp={n}')]] *)
Definition page_cp_param (next_page_num : Z) (a : Anchor) : bool :=
  attr_contains ("&cp=" ++ PyStr.of_Z next_page_num)%string (href_attr a) ||
  attr_contains ("?cp=" ++ PyStr.of_Z next_page_num)%string (href_attr a).

(** [page_selectors] *)
Definition page_selectors (next_page_num : Z) : list (Anchor -> bool) :=
  [page_text next_page_num; page_cp next_page_num; page_cp_param next_page_num].

End Selector.

(** ** [get_event_links_from_current_page] *)

(** The tests of the loop body once the three reads are done: [None] stands
    for [continue]. *)
Definition event_link_of (event_text : string) (event_url : option string)
    (element_class : string) : option EventLink :=
  if negb (PyStr.truthy event_text) || negb (PyStr.truthy_opt event_url) then None
  else if PyStr.contains "und" element_class then None
  else if PyStr.contains "league" (PyStr.lower event_text) then None
  else Some {| name := event_text; url := PyStr.or_empty event_url |}.

(** The three reads at the head of the loop body. *)
Definition read_event_element (element : Anchor) : outcome (option EventLink) :=
  event_text ← PyStr.strip <$> a_text element;
  event_url ← a_href element;
  element_class ← PyStr.or_empty <$> a_class element;
  mret (event_link_of event_text event_url element_class).

(** One turn of [for element in event_elements], with its [try]/[except:
    continue]. *)
Definition event_links_step (event_links : list EventLink) (element : Anchor)
    : list EventLink :=
  match try_except (read_event_element element) (fun _ => None) with
  | Some link => event_links ++ [link]
  | None => event_links
  end.

Definition collect_event_links (event_elements : list Anchor) : list EventLink :=
  foldl event_links_step [] event_elements.

(** The body of the outer [try]. *)
Definition event_links_body (p : Page) : outcome (list EventLink) :=
  _ ← scroll_to_bottom p;
  tables ← stable_tables p;
  if (length tables <? 2)%nat then mret []
  else
    match tables !! 1%nat, tables !! 0%nat with
    | Some second_table, Some first_table =>
        event_elements ← filter (fun a => Selector.event_link a = true) <$> table_anchors second_table;
        first_table_events ← filter (fun a => Selector.event_link a = true) <$> table_anchors first_table;
        mret (collect_event_links event_elements)
    | _, _ => Raised BrowserFault   (* out of range: excluded by the test above *)
    end.

Definition get_event_links_from_current_page (p : Page) : list EventLink :=
  try_except (event_links_body p) (fun _ => []).


(** ** [extract_event_data] *)

(** The reads and the test of the deck loop body: [None] when the link adds
    no deck. *)
Definition read_deck_link (link : Anchor) : outcome (option (string * string)) :=
  deck_name ← PyStr.strip <$> a_text link;
  deck_url ← a_href link;
  mret (if PyStr.truthy deck_name && PyStr.truthy_opt deck_url &&
           PyStr.contains "&d=" (PyStr.or_empty deck_url)
        then Some (deck_name, PyStr.or_empty deck_url)
        else None).

(** One turn of [for link in deck_links], with its [try]/[except: continue];
    the state is [(decks, position_counter)]. *)
Definition decks_step (st : list Deck * Z) (link : Anchor) : list Deck * Z :=
  let '(decks, position_counter) := st in
  match try_except (read_deck_link link) (fun _ => None) with
  | Some (deck_name, deck_url) =>
      (decks ++ [ {| position := position_counter; deck_name := deck_name;
                     player := "Unknown"; deck_url := deck_url |} ],
       (position_counter + 1)%Z)
  | None => (decks, position_counter)
  end.

(** The date block: [date] stays "Unknown" when reading the source raises or
    nothing matches. *)
Definition extract_date (p : Page) : string :=
  try_except (default "Unknown" <$> (PyStr.search_date <$> page_source p))
             (fun _ => "Unknown").

(** The deck block: [decks] stays empty when the search for links raises. *)
Definition extract_decks (p : Page) : list Deck :=
  try_except
    (deck_links ← filter (fun a => Selector.deck_link a = true) <$> anchors p;
     mret (fst (foldl decks_step ([], 1%Z) deck_links)))
    (fun _ => []).

Section Scraper.

Context {World : Type} (browser : Browser World).

(** [None] is the [return None] of the outer [except]. *)
Definition extract_event_data (w : World) (event_url event_name : string)
    : World * option EventRecord :=
  let '(w1, navigation) := get browser w event_url in
  match navigation with
  | Raised _ => (w1, None)
  | Ok _ =>
      let p := loaded browser w1 in
      let date := extract_date p in
      let decks := extract_decks p in
      (w1, Some {| event_name := event_name; date := date;
                   event_url := event_url;
                   total_decks := Z.of_nat (length decks);
                   decks := decks |})
  end.

(** ** Looking for the next page *)

(** Method 1 up to the choice of [next_link]. *)
Definition find_next_link (p : Page) : outcome (option Anchor) :=
  divs ← nav_divs p;
  match last divs with
  | None => mret None
  | Some last_nav_div =>
      next_links_in_div ← filter (fun a => Selector.next_link a = true) <$> nav_anchors last_nav_div;
      match next_links_in_div with
      | next_link :: _ => mret (Some next_link)
      | [] => _ ← nav_text last_nav_div; mret None
      end
  end.

(** What method 1 decides before it clicks: the link to click, if any. *)
Definition next_link_to_click (p : Page) : outcome (option Anchor) :=
  found ← find_next_link p;
  match found with
  | None => mret None
  | Some next_link =>
      next_class ← PyStr.or_empty <$> a_class next_link;
      next_href ← PyStr.or_empty <$> a_href next_link;
      _ ← a_text next_link;        (* read for the log line *)
      _ ← a_enabled next_link;     (* read for the log line *)
      if PyStr.contains "Nav_PN_no" next_class then mret None
      else
        enabled ← a_enabled next_link;
        mret (if (enabled : bool) then Some next_link else None)
  end.

(** The two tests of method 2 on a candidate: [true] stands for
    [continue]. *)
Definition disabled_link (link_class : string) : bool :=
  PyStr.contains "Nav_PN_no" link_class.

Definition not_pagination_link (link_text link_href : string) : bool :=
  PyStr.contains "archetype" link_href ||
  PyStr.contains "aggro" (PyStr.lower link_text) ||
  PyStr.contains "control" (PyStr.lower link_text) ||
  PyStr.contains "combo" (PyStr.lower link_text) ||
  (3 <? String.length link_text)%nat.

(** [for page_link in page_links]: the first link that passes both tests. *)
Fixpoint first_valid_link (page_links : list Anchor) : outcome (option Anchor) :=
  match page_links with
  | [] => mret None
  | page_link :: rest =>
      link_text ← PyStr.strip <$> a_text page_link;
      link_href ← PyStr.or_empty <$> a_href page_link;
      link_class ← PyStr.or_empty <$> a_class page_link;
      if disabled_link link_class then first_valid_link rest
      else if not_pagination_link link_text link_href then first_valid_link rest
      else mret (Some page_link)
  end.

(** [for i, selector in enumerate(page_selectors, 1)] *)
Fixpoint try_selectors (p : Page) (selectors : list (Anchor -> bool))
    : outcome (option Anchor) :=
  match selectors with
  | [] => mret None
  | selector :: rest =>
      page_links ← filter (fun a => selector a = true) <$> anchors p;
      found ← first_valid_link page_links;
      match found with
      | Some page_link => mret (Some page_link)
      | None => try_selectors p rest
      end
  end.

(** What method 2 decides before it clicks. *)
Definition page_link_to_click (p : Page) (current_page : Z) : outcome (option Anchor) :=
  let next_page_num := (current_page + 1)%Z in
  try_selectors p (Selector.page_selectors next_page_num).

(** The click, the pause and the read of the address that follow the
    choice of a link, in either method. *)
Definition click_through (w : World) (link : Anchor) : World * outcome bool :=
  let '(w1, clicked) := click browser w link in
  (w1, clicked ≫= fun _ => current_url (loaded browser w1) ≫= fun _ => Ok true).

(** The debug listing run when no next page was found: it reads every
    anchor and changes nothing. *)
Definition list_pagination_links (p : Page) : outcome unit :=
  all_links ← anchors p;
  _ ← mapM (fun link => _ ← a_href link; _ ← a_text link; a_class link) all_links;
  mret tt.

(** The body of the [try] of the pagination block; the value is
    [has_next_page]. *)
Definition next_page_body (w : World) (current_page : Z) : World * outcome bool :=
  match next_link_to_click (loaded browser w) with
  | Raised e => (w, Raised e)
  | Ok (Some next_link) => click_through w next_link
  | Ok None =>
      match page_link_to_click (loaded browser w) current_page with
      | Raised e => (w, Raised e)
      | Ok (Some page_link) => click_through w page_link
      | Ok None => (w, list_pagination_links (loaded browser w) ≫= fun _ => Ok false)
      end
  end.

(** The pagination block with its [except]: [has_next_page] is still
    [False] whenever something raised. *)
Definition go_to_next_page (w : World) (current_page : Z) : World * bool :=
  let '(w1, has_next_page) := next_page_body w current_page in
  (w1, try_except has_next_page (fun _ => false)).

(** ** The page loop of [scrape_from_url] *)

(** [while True]: one unit of [fuel] is one turn of the loop, [None] means
    the fuel ran out before the loop ended.  A result is the browser state
    with either the exception that left the loop or the final
    [(current_page, all_event_links)]. *)
Fixpoint page_loop (fuel : nat) (w : World) (current_page : Z)
    (all_event_links : list EventLink)
    : option (World * outcome (Z * list EventLink)) :=
  match fuel with
  | O => None
  | S fuel' =>
      let page_events := get_event_links_from_current_page (loaded browser w) in
      let probed :=
        match page_events with
        | [] => _ ← structure_probe (loaded browser w); mret all_event_links
        | _ :: _ => mret (all_event_links ++ page_events)
        end in
      match probed with
      | Raised e => Some (w, Raised e)
      | Ok all_event_links' =>
          let '(w1, has_next_page) := go_to_next_page w current_page in
          if negb has_next_page then Some (w1, Ok (current_page, all_event_links'))
          else
            let current_page' := (current_page + 1)%Z in
            if (5000 <? current_page')%Z
            then Some (w1, Ok (current_page', all_event_links'))
            else page_loop fuel' w1 current_page' all_event_links'
      end
  end.

(** [for i, event in enumerate(events_to_process, 1)]; the state is the
    browser, [self.all_events_data] and [events_processed]. *)
Definition process_step (st : World * list EventRecord * Z) (event : EventLink)
    : World * list EventRecord * Z :=
  let '(w, all_events_data, events_processed) := st in
  match extract_event_data w (url event) (name event) with
  | (w1, Some event_data) => (w1, all_events_data ++ [event_data], (events_processed + 1)%Z)
  | (w1, None) => (w1, all_events_data, events_processed)
  end.

(** [scrape_from_url]: the browser state, [self.all_events_data] and the
    value returned; [None] only when [fuel] turns of the page loop were
    not enough. *)
Definition scrape_from_url (fuel : nat) (w : World) (all_events_data : list EventRecord)
    (start_url : string) : option (World * list EventRecord * Z) :=
  let '(w1, started) := get browser w start_url in
  match started with
  | Raised _ => Some (w1, all_events_data, 0%Z)
  | Ok _ =>
      match page_loop fuel w1 1%Z [] with
      | None => None
      | Some (w2, Raised _) => Some (w2, all_events_data, 0%Z)
      | Some (w2, Ok (current_page, all_event_links)) =>
          let unique_events := deduplicate all_event_links in
          if (length all_event_links =? 0)%nat then Some (w2, all_events_data, 0%Z)
          else Some (foldl process_step (w2, all_events_data, 0%Z) unique_events)
      end
  end.

End Scraper.


(** ** [save_data] *)

(** One dictionary of [all_decks], in the order of its keys. *)
Module DeckRow.
Record t : Type := mk {
  event_name : string;
  event_date : string;
  event_url : string;
  deck_position : Z;
  deck_name : string;
  player_name : string;
  deck_url : string
}.
End DeckRow.

(** How the table library prints a frame: the header line and the line of
    one row, each with its line end.  The source leaves both to the
    library, so they are a parameter here. *)
Record CsvFormat : Type := mkCsvFormat {
  header_line : string;
  row_line : DeckRow.t -> string
}.

Inductive write_mode : Type := mode_w | mode_a.

(** The text [to_csv] produces for a frame. *)
Definition csv_text (fmt : CsvFormat) (header : bool) (frame : list DeckRow.t) : string :=
  ((if header then header_line fmt else "") ++
   fold_right (fun row rest => row_line fmt row ++ rest) "" frame)%string.

(** [frame.to_csv(csv_filename, index=False, mode=..., header=...)] on the
    output file, whose content is [None] while the file does not exist. *)
Definition to_csv (fmt : CsvFormat) (frame : list DeckRow.t) (mode : write_mode)
    (header : bool) (file : option string) : option string :=
  match mode with
  | mode_w => Some (csv_text fmt header frame)
  | mode_a => Some (default "" file ++ csv_text fmt header frame)%string
  end.

(** The rows one event adds to [all_decks]. *)
Definition row_of (event : EventRecord) (deck : Deck) : DeckRow.t :=
  {| DeckRow.event_name := event_name event;
     DeckRow.event_date := date event;
     DeckRow.event_url := event_url event;
     DeckRow.deck_position := position deck;
     DeckRow.deck_name := deck_name deck;
     DeckRow.player_name := player deck;
     DeckRow.deck_url := deck_url deck |}.

Definition flatten_step (all_decks : list DeckRow.t) (event : EventRecord) : list DeckRow.t :=
  foldl (fun rows deck => rows ++ [row_of event deck]) all_decks (decks event).

Definition flatten (all_events_data : list EventRecord) : list DeckRow.t :=
  foldl flatten_step [] all_events_data.

(** [range(start, stop, step)] for a positive step; it has at most [stop]
    elements, which bounds the recursion. *)
Fixpoint range_from (fuel start stop step : nat) : list nat :=
  match fuel with
  | O => []
  | S fuel' =>
      if (start <? stop)%nat then start :: range_from fuel' (start + step) stop step
      else []
  end.

Definition py_range (start stop step : nat) : list nat :=
  range_from stop start stop step.

(** One turn of [for i in range(0, len(df), chunk_size)]. *)
Definition chunk_step (fmt : CsvFormat) (df : list DeckRow.t) (chunk_size : nat)
    (file : option string) (i : nat) : option string :=
  let chunk := take chunk_size (drop i df) in
  if (i =? 0)%nat then to_csv fmt chunk mode_w true file
  else to_csv fmt chunk mode_a false file.

Definition write_chunks (fmt : CsvFormat) (df : list DeckRow.t) (chunk_size : nat)
    (file : option string) : option string :=
  foldl (chunk_step fmt df chunk_size) file (py_range 0 (length df) chunk_size).

Definition chunk_size : nat := Z.to_nat 10000.

(** The [if all_decks:] block: the output file afterwards and the binding
    of the local [csv_filename], [None] while it is unbound. *)
Definition write_decks (fmt : CsvFormat) (all_decks : list DeckRow.t)
    (file : option string) : option string * option string :=
  match all_decks with
  | [] => (file, None)
  | _ :: _ =>
      let df := all_decks in
      let csv_filename := "mtgtop8_decks.csv" in
      (if (100000 <? Z.of_nat (length all_decks))%Z
       then write_chunks fmt df chunk_size file
       else to_csv fmt df mode_w true file,
       Some csv_filename)
  end.

(** [save_data]: the output file afterwards and how the call ended. *)
Definition save_data (fmt : CsvFormat) (all_events_data : list EventRecord)
    (file : option string) : option string * outcome unit :=
  match all_events_data with
  | [] => (file, Ok tt)
  | _ :: _ =>
      let all_decks := flatten all_events_data in
      let '(file1, csv_filename) := write_decks fmt all_decks file in
      match csv_filename with
      | None => (file1, Raised (UnboundLocalError "csv_filename"))
      | Some _ => (file1, Ok tt)
      end
  end.

(** The non-batched write the batched one is compared with: the same
    procedure with the frame always written by one [to_csv] call. *)
Definition save_data_single_write (fmt : CsvFormat) (all_events_data : list EventRecord)
    (file : option string) : option string * outcome unit :=
  match all_events_data with
  | [] => (file, Ok tt)
  | _ :: _ =>
      match flatten all_events_data with
      | [] => (file, Raised (UnboundLocalError "csv_filename"))
      | df => (to_csv fmt df mode_w true file, Ok tt)
      end
  end.

(** A format to run the definitions with: comma separated fields, a field
    quoted when it holds a comma, a quote or a line break, lines ended by a
    line feed. *)
Module PlainCsv.

Definition quote : ascii := "034"%char.
Definition line_feed : ascii := "010"%char.
Definition carriage_return : ascii := "013"%char.

Fixpoint needs_quotes (s : string) : bool :=
  match s with
  | EmptyString => false
  | String c rest =>
      Ascii.eqb c "," || Ascii.eqb c quote || Ascii.eqb c line_feed ||
      Ascii.eqb c carriage_return || needs_quotes rest
  end.

Fixpoint double_quotes (s : string) : string :=
  match s with
  | EmptyString => EmptyString
  | String c rest =>
      if Ascii.eqb c quote then String quote (String quote (double_quotes rest))
      else String c (double_quotes rest)
  end.

Definition field (s : string) : string :=
  if needs_quotes s
  then (String quote (double_quotes s) ++ String quote EmptyString)%string
  else s.

Fixpoint line (fields : list string) : string :=
  match fields with
  | [] => String line_feed EmptyString
  | [f] => (field f ++ String line_feed EmptyString)%string
  | f :: rest => (field f ++ "," ++ line rest)%string
  end.

Definition format : CsvFormat :=
  {| header_line := line ["event_name"; "event_date"; "event_url"; "deck_position";
                          "deck_name"; "player_name"; "deck_url"];
     row_line := fun r =>
       line [DeckRow.event_name r; DeckRow.event_date r; DeckRow.event_url r;
             PyStr.of_Z (DeckRow.deck_position r); DeckRow.deck_name r;
             DeckRow.player_name r; DeckRow.deck_url r] |}.

End PlainCsv.


(** ** Notions the statements below are written with *)

(** [e] stands at index [i] of [l] and no earlier entry of [l] has its
    address. *)
Definition first_occurrence (l : list EventLink) (i : nat) (e : EventLink) : Prop :=
  l !! i = Some e ∧ ∀ j e', (j < i)%nat → l !! j = Some e' → url e' ≠ url e.

(** The entries of [l] whose address is neither in [seen] nor carried by an
    earlier entry, without an accumulator. *)
Fixpoint keep_new (seen : gset string) (l : list EventLink) : list EventLink :=
  match l with
  | [] => []
  | e :: rest =>
      if decide (url e ∈ seen) then keep_new seen rest
      else e :: keep_new (seen ∪ {[url e]}) rest
  end.

(** What one turn of the event loop appends, if anything. *)
Definition kept_event_link (element : Anchor) : option EventLink :=
  try_except (read_event_element element) (fun _ => None).

(** The candidates of a table: its anchors that match the event selector. *)
Definition event_candidates (table_links : list Anchor) : list Anchor :=
  filter (fun a => Selector.event_link a = true) table_links.

(** ** Documents and sessions to run the definitions on *)

(** An anchor whose reads all succeed and agree with its markup. *)
Definition readable_anchor (href : option string) (text : string) (class : option string)
    : Anchor :=
  {| href_attr := href; text_node := Some text; a_text := Ok text;
     a_href := Ok href; a_class := Ok class; a_enabled := Ok true |}.

(** A document with the given tables, navigation blocks and anchors, every
    query of which succeeds. *)
Definition readable_page (tables : list Table) (navs : list NavDiv)
    (links : list Anchor) (source : string) : Page :=
  {| scroll_to_bottom := Ok tt; stable_tables := Ok tables; structure_probe := Ok tt;
     nav_divs := Ok navs; anchors := Ok links;
     current_url := Ok "https://www.mtgtop8.com/format?f=ST"; page_source := Ok source |}.

(** A session that shows the same document whatever is asked of it. *)
Definition static_browser : Browser Page :=
  {| loaded := fun w => w; get := fun w _ => (w, Ok tt); click := fun w _ => (w, Ok tt) |}.

Module Sample.

Definition decorative : Anchor :=
  readable_anchor (Some "event?e=1&f=ST") "Featured event" None.
Definition lyon : Anchor :=
  readable_anchor (Some "event?e=2&f=ST") " Grand Prix Lyon " None.
Definition league : Anchor :=
  readable_anchor (Some "event?e=3&f=ST") "Standard League #42" None.
Definition placeholder : Anchor :=
  readable_anchor (Some "event?e=4&f=ST") "Store event" (Some "und").
Definition other_format : Anchor :=
  readable_anchor (Some "format?f=MO") "Modern" None.
Definition older : Anchor :=
  readable_anchor (Some "event?e=5&f=ST") "Old event" None.

(** Three qualifying tables; only the second carries results. *)
Definition listing : Page :=
  readable_page
    [mkTable (Ok [decorative]);
     mkTable (Ok [lyon; league; other_format; placeholder]);
     mkTable (Ok [older])]
    [] [decorative; lyon; league; other_format; placeholder; older] "".

(** A single qualifying table, although it holds an event link. *)
Definition one_table : Page :=
  readable_page [mkTable (Ok [lyon])] [] [lyon] "".

(** A result row whose class is not the placeholder tag but contains it. *)
Definition rounded : Anchor :=
  readable_anchor (Some "event?e=6&f=ST") "Pro Tour" (Some "rounded").

Definition rounded_listing : Page :=
  readable_page [mkTable (Ok []); mkTable (Ok [rounded])] [] [rounded] "".

End Sample.

Module SampleEvent.

Definition winner : Anchor :=
  readable_anchor (Some "?e=2&d=10&f=ST") "Mono Red" None.
Definition icon : Anchor :=
  readable_anchor (Some "?e=2&d=10&f=ST") "" None.
Definition finalist : Anchor :=
  readable_anchor (Some "?e=2&d=11&f=ST") "Esper Control" None.
Definition home : Anchor :=
  readable_anchor (Some "index") "Home" None.

(** A deck link that has gone stale: reading its text raises. *)
Definition stale : Anchor :=
  {| href_attr := Some "?e=2&d=12&f=ST"; text_node := Some "Jund";
     a_text := Raised BrowserFault; a_href := Ok (Some "?e=2&d=12&f=ST");
     a_class := Ok None; a_enabled := Ok true |}.

(** An event page read without a fault; the second deck link is an image
    link without text. *)
Definition event_page : Page :=
  readable_page [] [] [home; winner; icon; finalist]
    "<html>Grand Prix Lyon 12 players 01/02/23 updated 03/02/23</html>".

(** An event page whose source cannot be read and one of whose deck links
    is stale. *)
Definition faulty_page : Page :=
  {| scroll_to_bottom := Ok tt; stable_tables := Ok []; structure_probe := Ok tt;
     nav_divs := Ok []; anchors := Ok [winner; stale; finalist];
     current_url := Ok "event?e=2"; page_source := Raised BrowserFault |}.

(** An event page on which the search for deck links raises. *)
Definition unsearchable_page : Page :=
  {| scroll_to_bottom := Ok tt; stable_tables := Ok []; structure_probe := Ok tt;
     nav_divs := Ok []; anchors := Raised BrowserFault;
     current_url := Ok "event?e=2"; page_source := Ok "played on 01/02/23" |}.

(** A session in which every navigation raises. *)
Definition offline : Browser Page :=
  {| loaded := fun w => w; get := fun w _ => (w, Raised BrowserFault);
     click := fun w _ => (w, Raised BrowserFault) |}.

End SampleEvent.

(** What one turn of the deck loop appends, if anything: a name and an
    address. *)
Definition kept_deck_link (link : Anchor) : option (string * string) :=
  try_except (read_deck_link link) (fun _ => None).

(** The candidates of an event page: its anchors that match the deck
    selector. *)
Definition deck_candidates (links : list Anchor) : list Anchor :=
  filter (fun a => Selector.deck_link a = true) links.

(** Decks numbered from [counter] on, one number per entry. *)
Fixpoint number_from (counter : Z) (kept : list (string * string)) : list Deck :=
  match kept with
  | [] => []
  | (deck_name, deck_url) :: rest =>
      {| position := counter; deck_name := deck_name; player := "Unknown";
         deck_url := deck_url |} :: number_from (counter + 1) rest
  end.

Module SamplePaging.

(** The link to page 100 as the site prints it, without an address. *)
Definition page_100 : Anchor := readable_anchor None "100" None.

Definition listing_99 : Page := readable_page [] [] [page_100] "".

(** A link whose address carries [cp=2] and whose text is no numeral. *)
Definition arrow : Anchor := readable_anchor (Some "format?f=ST&cp=2") "2 >" None.

Definition listing_1 : Page := readable_page [] [] [arrow] "".

(** A link whose text is the next page number but is four characters
    long once read. *)
Definition padded : Anchor :=
  {| href_attr := Some "format?f=ST&cp=2"; text_node := Some "2";
     a_text := Ok "2 of"; a_href := Ok (Some "format?f=ST&cp=2");
     a_class := Ok None; a_enabled := Ok true |}.

Definition listing_padded : Page := readable_page [] [] [padded] "".

(** A site that shows a working "Next" link on every page. *)
Definition next : Anchor := readable_anchor (Some "format?f=ST&cp=2") "Next" (Some "Nav_PN").

Definition endless : Page :=
  readable_page [] [mkNavDiv (Ok []) (Ok ""); mkNavDiv (Ok [next]) (Ok "Prev Next")]
    [next] "".

End SamplePaging.

(** What method 2 has checked on the link it returns. *)
Definition passed_checks (link : Anchor) : Prop :=
  ∃ text address class,
    a_text link = Ok text ∧ a_href link = Ok address ∧ a_class link = Ok class ∧
    (String.length (PyStr.strip text) ≤ 3)%nat ∧
    PyStr.contains "Nav_PN_no" (PyStr.or_empty class) = false ∧
    PyStr.contains "archetype" (PyStr.or_empty address) = false ∧
    PyStr.contains "aggro" (PyStr.lower (PyStr.strip text)) = false ∧
    PyStr.contains "control" (PyStr.lower (PyStr.strip text)) = false ∧
    PyStr.contains "combo" (PyStr.lower (PyStr.strip text)) = false.

Module SampleExport.

Definition lyon : EventRecord :=
  {| event_name := "E1"; date := "01/02/23"; event_url := "u1"; total_decks := 1;
     decks := [ {| position := 1; deck_name := "D1"; player := "Unknown";
                   deck_url := "d1" |} ] |}.

(** An event on whose page no deck link was found. *)
Definition no_decks : EventRecord :=
  {| event_name := "E2"; date := "Unknown"; event_url := "u2"; total_decks := 0;
     decks := [] |}.

End SampleExport.



Module SampleSite.

(** A site with one listing page and the same event page behind every
    event address. *)
Definition browser : Browser Page :=
  {| loaded := fun w => w;
     get := fun _ address =>
       (if PyStr.contains "event?e=" address then SampleEvent.event_page
        else Sample.listing, Ok tt);
     click := fun w _ => (w, Ok tt) |}.

Definition blank : Page := readable_page [] [] [] "".

End SampleSite.

(** ** [main] *)

(** [{"url": ..., "description": ...}] *)
Record UrlInfo : Type := mkUrlInfo {
  info_url : string;
  info_description : string
}.

(** One turn of [for i, url in enumerate(sys.argv[1:], 1)]; the state is
    [(urls_to_scrape, i)]. *)
Definition argv_step (st : list UrlInfo * Z) (address : string) : list UrlInfo * Z :=
  let '(urls_to_scrape, i) := st in
  (urls_to_scrape ++ [ {| info_url := address;
                          info_description := ("URL " ++ PyStr.of_Z i)%string |} ],
   (i + 1)%Z).

(** The list [urls_to_scrape] that [main] builds from [sys.argv]. *)
Definition urls_to_scrape (argv : list string) : list UrlInfo :=
  if (1 <? length argv)%nat
  then fst (foldl argv_step ([], 1%Z) (drop 1 argv))
  else [ {| info_url := "https://www.mtgtop8.com/format?f=ST";
            info_description := "Standard - Default View" |} ].

Section Main.

Context {World : Type} (browser : Browser World).

(** [scraper.close()]: [driver.quit()] with its exception caught. *)
Definition close (quit : World -> World * outcome unit) (w : World) : World :=
  fst (quit w).

(** One turn of [for i, url_info in enumerate(urls_to_scrape, 1)]; the state
    is the browser, [scraper.all_events_data] and [total_events_processed],
    or [None] once the fuel of a page loop ran out. *)
Definition scrape_all_step (fuel : nat) (st : option (World * list EventRecord * Z))
    (url_info : UrlInfo) : option (World * list EventRecord * Z) :=
  match st with
  | None => None
  | Some (w, all_events_data, total_events_processed) =>
      match scrape_from_url browser fuel w all_events_data (info_url url_info) with
      | None => None
      | Some (w1, all_events_data1, events_processed) =>
          Some (w1, all_events_data1, (total_events_processed + events_processed)%Z)
      end
  end.

(** [scraper.save_data()] at the end of the [try] of [main], followed by the
    [except Exception] handler when it raises: the handler saves again if
    there are records, and drops what that second call raises. *)
Definition save_with_handler (fmt : CsvFormat) (all_events_data : list EventRecord)
    (file : option string) : option string :=
  let '(file1, saved) := save_data fmt all_events_data file in
  match saved with
  | Ok _ => file1
  | Raised _ =>
      match all_events_data with
      | [] => file1
      | _ :: _ => fst (save_data fmt all_events_data file1)
      end
  end.

(** [main] without its log lines and prompts, for a run that is not
    interrupted from the keyboard.  [start] is what constructing the scraper
    gives, [quit] is [driver.quit()].  The result is the browser state after
    [close] ([None] when the scraper could not be constructed), the output
    file and [total_events_processed]; it is [None] only when [fuel] turns
    were not enough for a page loop. *)
Definition main (fmt : CsvFormat) (quit : World -> World * outcome unit) (fuel : nat)
    (start : outcome World) (argv : list string) (file : option string)
    : option (option World * option string * Z) :=
  let urls := urls_to_scrape argv in
  match start with
  | Raised _ => Some (None, file, 0%Z)
  | Ok w =>
      match foldl (scrape_all_step fuel) (Some (w, [], 0%Z)) urls with
      | None => None
      | Some (w1, all_events_data, total_events_processed) =>
          let file1 := save_with_handler fmt all_events_data file in
          Some (Some (close quit w1), file1, total_events_processed)
      end
  end.

End Main.

Module SampleFaults.

(** A listing whose navigation blocks cannot be searched. *)
Definition broken_navigation : Page :=
  {| scroll_to_bottom := Ok tt;
     stable_tables := Ok [mkTable (Ok []); mkTable (Ok [Sample.lyon])];
     structure_probe := Ok tt; nav_divs := Raised BrowserFault;
     anchors := Ok [Sample.lyon; SamplePaging.next];
     current_url := Ok "https://www.mtgtop8.com/format?f=ST"; page_source := Ok "" |}.


End SampleFaults.

Module SampleLastPage.

(** The last page of a listing: its "Next" link and the link to page 3 both
    carry the class of a switched-off control. *)
Definition next_off : Anchor :=
  readable_anchor (Some "format?f=ST&cp=3") "Next" (Some "Nav_PN_no").
Definition three_off : Anchor :=
  readable_anchor (Some "format?f=ST&cp=3") "3" (Some "Nav_PN_no").

Definition page : Page :=
  readable_page [] [mkNavDiv (Ok [next_off]) (Ok "Prev Next")] [three_off; next_off] "".

End SampleLastPage.

(** * Properties *)

(** ** The deduplicator *)

Lemma dedup_loop_keep_new (l acc : list EventLink) (seen : gset string) :
  fst (dedup_loop l (acc, seen)) = acc ++ keep_new seen l.
Proof.
  revert acc seen. induction l as [|e rest IH]; intros acc seen; simpl.
  - by rewrite app_nil_r.
  - unfold dedup_loop in *. simpl. destruct (decide (url e ∈ seen)).
    + apply IH.
    + rewrite IH. by rewrite <- app_assoc.
Qed.

Lemma deduplicate_keep_new (l : list EventLink) : deduplicate l = keep_new ∅ l.
Proof. unfold deduplicate. by rewrite dedup_loop_keep_new. Qed.

Lemma keep_new_urls (l : list EventLink) (seen : gset string) (u : string) :
  u ∈ url <$> keep_new seen l ↔ u ∈ url <$> l ∧ u ∉ seen.
Proof.
  revert seen. induction l as [|e rest IH]; intros seen; simpl.
  - set_solver.
  - destruct (decide (url e ∈ seen)) as [Hin|Hout].
    + rewrite IH. set_solver.
    + rewrite fmap_cons, !elem_of_cons, IH.
      destruct (decide (u = url e)); set_solver.
Qed.

Lemma keep_new_NoDup (l : list EventLink) (seen : gset string) :
  NoDup (url <$> keep_new seen l).
Proof.
  revert seen. induction l as [|e rest IH]; intros seen; simpl.
  - constructor.
  - destruct (decide (url e ∈ seen)); [apply IH|].
    rewrite fmap_cons. constructor; [|apply IH].
    rewrite keep_new_urls. set_solver.
Qed.

Lemma keep_new_length (l : list EventLink) (seen : gset string) :
  (length (keep_new seen l) ≤ length l)%nat.
Proof.
  revert seen. induction l as [|e rest IH]; intros seen; simpl; [lia|].
  destruct (decide (url e ∈ seen)); simpl; [specialize (IH seen)|specialize (IH (seen ∪ {[url e]}))]; lia.
Qed.

(** Every kept entry stands at a first occurrence, and the kept entries come
    in the order of their indices. *)
Lemma keep_new_indices (l : list EventLink) (seen : gset string) :
  ∃ indices : list nat,
    StronglySorted lt indices ∧
    Forall2 (fun i e => first_occurrence l i e ∧ url e ∉ seen) indices (keep_new seen l).
Proof.
  revert seen. induction l as [|e rest IH]; intros seen; simpl.
  - exists []. split; constructor.
  - destruct (decide (url e ∈ seen)) as [Hin|Hout].
    + destruct (IH seen) as (indices & Hsorted & Hall).
      exists (S <$> indices). split.
      * clear Hall. induction Hsorted as [|i rest' Hs IHs Hlt]; simpl; constructor; [done|].
        rewrite Forall_fmap. eapply Forall_impl; [exact Hlt|]. simpl. lia.
      * rewrite Forall2_fmap_l. eapply Forall2_impl; [exact Hall|].
        intros i x [[Hi Hfirst] Hx]. split; [|done]. split; [done|].
        intros [|j] e' Hj Hlook; simpl in Hlook.
        -- injection Hlook as <-. congruence.
        -- eapply Hfirst; [|done]. lia.
    + destruct (IH (seen ∪ {[url e]})) as (indices & Hsorted & Hall).
      exists (0%nat :: (S <$> indices)). split.
      * constructor.
        -- clear Hall. induction Hsorted as [|i rest' Hs IHs Hlt]; simpl; constructor; [done|].
           rewrite Forall_fmap. eapply Forall_impl; [exact Hlt|]. simpl. lia.
        -- rewrite Forall_fmap. apply Forall_forall. intros; simpl; lia.
      * constructor.
        -- split; [|done]. split; [done|]. intros; lia.
        -- rewrite Forall2_fmap_l. eapply Forall2_impl; [exact Hall|].
           intros i x [[Hi Hfirst] Hx]. split; [|set_solver]. split; [done|].
           intros [|j] e' Hj Hlook; simpl in Hlook.
           ++ injection Hlook as <-. set_solver.
           ++ eapply Hfirst; [|done]. lia.
Qed.

(** C1. For every input list the deduplicator returns a list in which no two
    entries share an address, which carries exactly the addresses of the
    input, whose entries are the first input entries with their address
    taken in the order of their input positions, and which is no longer
    than the input. *)
Theorem deduplicate_first_occurrences (l : list EventLink) :
  NoDup (url <$> deduplicate l) ∧
  (∀ u, u ∈ url <$> deduplicate l ↔ u ∈ url <$> l) ∧
  (∃ indices : list nat,
     StronglySorted lt indices ∧
     Forall2 (first_occurrence l) indices (deduplicate l)) ∧
  (length (deduplicate l) ≤ length l)%nat.
Proof.
  rewrite deduplicate_keep_new. repeat split.
  - apply keep_new_NoDup.
  - rewrite keep_new_urls. tauto.
  - rewrite keep_new_urls. set_solver.
  - destruct (keep_new_indices l ∅) as (indices & Hsorted & Hall).
    exists indices. split; [done|]. eapply Forall2_impl; [exact Hall|]. by intros ?? [? _].
  - apply keep_new_length.
Qed.

(** ** The page event extractor *)

Lemma event_links_foldl (elements : list Anchor) (acc : list EventLink) :
  foldl event_links_step acc elements = acc ++ omap kept_event_link elements.
Proof.
  revert acc. induction elements as [|a rest IH]; intros acc; simpl.
  - by rewrite app_nil_r.
  - rewrite IH. unfold event_links_step, kept_event_link.
    destruct (try_except (read_event_element a) (fun _ => None)); [|done].
    by rewrite <- app_assoc.
Qed.

Lemma collect_event_links_omap (elements : list Anchor) :
  collect_event_links elements = omap kept_event_link elements.
Proof. unfold collect_event_links. by rewrite event_links_foldl. Qed.

Lemma few_tables_no_links (p : Page) (tables : list Table) :
  stable_tables p = Ok tables → (length tables < 2)%nat →
  get_event_links_from_current_page p = [].
Proof.
  intros Htables Hfew. unfold get_event_links_from_current_page, event_links_body.
  destruct (scroll_to_bottom p); simpl; [|done].
  rewrite Htables. simpl.
  destruct (Nat.ltb_spec (length tables) 2); [done|lia].
Qed.

Lemma two_tables_links (p : Page) (first second : Table) (later : list Table)
    (firsts seconds : list Anchor) :
  scroll_to_bottom p = Ok tt →
  stable_tables p = Ok (first :: second :: later) →
  table_anchors first = Ok firsts →
  table_anchors second = Ok seconds →
  get_event_links_from_current_page p = collect_event_links (event_candidates seconds).
Proof.
  intros Hscroll Htables Hfirst Hsecond.
  unfold get_event_links_from_current_page, event_links_body.
  rewrite Hscroll, Htables. simpl. rewrite Hsecond, Hfirst. reflexivity.
Qed.

(** Whatever raises, a link of the output was collected from the second
    table. *)
Lemma links_from_second_table (p : Page) (link : EventLink) :
  link ∈ get_event_links_from_current_page p →
  ∃ tables second seconds,
    stable_tables p = Ok tables ∧ tables !! 1%nat = Some second ∧
    table_anchors second = Ok seconds ∧
    link ∈ collect_event_links (event_candidates seconds).
Proof.
  unfold get_event_links_from_current_page, event_links_body.
  destruct (scroll_to_bottom p); simpl; [|by intros ?%elem_of_nil].
  destruct (stable_tables p) as [tables|]; simpl; [|by intros ?%elem_of_nil].
  destruct (length tables <? 2)%nat; simpl; [by intros ?%elem_of_nil|].
  destruct (tables !! 1%nat) as [second|] eqn:H1; simpl; [|by intros ?%elem_of_nil].
  destruct (tables !! 0%nat) as [first|]; simpl; [|by intros ?%elem_of_nil].
  destruct (table_anchors second) as [seconds|] eqn:H2; simpl; [|by intros ?%elem_of_nil].
  destruct (table_anchors first); simpl; [|by intros ?%elem_of_nil].
  intros Hin. by exists tables, second, seconds.
Qed.

(** C2. With fewer than two qualifying tables the extractor returns the
    empty list.  With two or more, read without a fault, its result is what
    the loop collects from the candidates of the second table: neither the
    anchors of the first table nor the later tables enter it.  In every case
    a link of the result was collected from the second table. *)
Theorem second_stable_table_only (p : Page) (tables : list Table) :
  stable_tables p = Ok tables →
  ((length tables < 2)%nat → get_event_links_from_current_page p = []) ∧
  (∀ first second later firsts seconds,
     tables = first :: second :: later →
     scroll_to_bottom p = Ok tt →
     table_anchors first = Ok firsts →
     table_anchors second = Ok seconds →
     get_event_links_from_current_page p = collect_event_links (event_candidates seconds)) ∧
  (∀ link, link ∈ get_event_links_from_current_page p →
     ∃ second seconds, tables !! 1%nat = Some second ∧
       table_anchors second = Ok seconds ∧
       link ∈ collect_event_links (event_candidates seconds)).
Proof.
  intros Htables. split; [|split].
  - by apply few_tables_no_links.
  - intros first second later firsts seconds -> Hscroll Hfirst Hsecond.
    by eapply two_tables_links.
  - intros link Hin.
    destruct (links_from_second_table p link Hin) as (ts & second & seconds & Hts & H1 & H2 & H3).
    rewrite Htables in Hts. injection Hts as <-. by exists second, seconds.
Qed.

(** On a listing with three qualifying tables only the results of the second
    one come out; a lone table yields nothing. *)
Lemma second_stable_table_only_witness :
  get_event_links_from_current_page Sample.listing =
    [ {| name := "Grand Prix Lyon"; url := "event?e=2&f=ST" |} ] ∧
  get_event_links_from_current_page Sample.one_table = [].
Proof.
  split.
  - destruct (second_stable_table_only Sample.listing _ eq_refl) as (_ & Hsecond & _).
    rewrite (Hsecond _ _ _ _ _ eq_refl eq_refl eq_refl eq_refl). reflexivity.
  - destruct (second_stable_table_only Sample.one_table _ eq_refl) as (Hfew & _ & _).
    apply Hfew. simpl. lia.
Defined.

Lemma truthy_empty (s : string) : PyStr.truthy s = false ↔ s = "".
Proof. destruct s; simpl; split; congruence. Qed.

Lemma truthy_opt_empty (s : option string) :
  PyStr.truthy_opt s = false ↔ s = None ∨ s = Some "".
Proof.
  destruct s as [s|]; simpl.
  - rewrite truthy_empty. split; [intros ->; by right|intros [?|?]; congruence].
  - split; [by left|done].
Qed.

Lemma event_link_of_None (event_text : string) (event_url : option string)
    (element_class : string) :
  event_link_of event_text event_url element_class = None ↔
    (event_text = "" ∨ event_url = None ∨ event_url = Some "") ∨
    PyStr.contains "und" element_class = true ∨
    PyStr.contains "league" (PyStr.lower event_text) = true.
Proof.
  unfold event_link_of.
  rewrite <- (truthy_empty event_text), <- (truthy_opt_empty event_url).
  destruct (PyStr.truthy event_text), (PyStr.truthy_opt event_url); simpl;
    try (split; [intros _; left; tauto | done]).
  destruct (PyStr.contains "und" element_class); simpl; [split; [tauto|done]|].
  destruct (PyStr.contains "league" (PyStr.lower event_text)); simpl; [split; [tauto|done]|].
  split; [done|]. intros [[?|?]|[?|?]]; congruence.
Qed.

Lemma event_link_of_Some (event_text : string) (event_url : option string)
    (element_class : string) (link : EventLink) :
  event_link_of event_text event_url element_class = Some link →
  link = {| name := event_text; url := PyStr.or_empty event_url |}.
Proof.
  unfold event_link_of.
  repeat match goal with |- context [if ?b then _ else _] => destruct b end; congruence.
Qed.

Lemma kept_event_link_readable (element : Anchor) (text : string)
    (address class : option string) :
  a_text element = Ok text → a_href element = Ok address → a_class element = Ok class →
  kept_event_link element = event_link_of (PyStr.strip text) address (PyStr.or_empty class).
Proof.
  intros Ht Hh Hc. unfold kept_event_link, read_event_element.
  rewrite Ht, Hh, Hc. reflexivity.
Qed.

(** C5, as the code has it.  On a listing read without a fault the result
    is made of the candidates of the second table that the loop keeps, in
    their order; a candidate whose three reads succeed is dropped exactly
    when its stripped text is empty or its address is missing or empty, or
    its class attribute contains "und" as a substring, or its stripped text
    contains "league" whatever the case; a candidate that is kept comes out
    with its stripped text and its address. *)
Theorem event_link_exclusion (p : Page) (first second : Table) (later : list Table)
    (firsts seconds : list Anchor) :
  scroll_to_bottom p = Ok tt →
  stable_tables p = Ok (first :: second :: later) →
  table_anchors first = Ok firsts →
  table_anchors second = Ok seconds →
  get_event_links_from_current_page p = omap kept_event_link (event_candidates seconds) ∧
  ∀ element text address class,
    a_text element = Ok text → a_href element = Ok address → a_class element = Ok class →
    (kept_event_link element = None ↔
       (PyStr.strip text = "" ∨ address = None ∨ address = Some "") ∨
       PyStr.contains "und" (PyStr.or_empty class) = true ∨
       PyStr.contains "league" (PyStr.lower (PyStr.strip text)) = true) ∧
    (∀ link, kept_event_link element = Some link →
       link = {| name := PyStr.strip text; url := PyStr.or_empty address |}).
Proof.
  intros Hscroll Htables Hfirst Hsecond. split.
  - rewrite (two_tables_links p first second later firsts seconds) by done.
    apply collect_event_links_omap.
  - intros element text address class Ht Hh Hc.
    rewrite (kept_event_link_readable element text address class) by done.
    split; [apply event_link_of_None|apply event_link_of_Some].
Qed.

(** On the sample listing the league row and the placeholder row are
    dropped and the Lyon row is kept under its stripped text. *)
Lemma event_link_exclusion_witness :
  get_event_links_from_current_page Sample.listing =
    omap kept_event_link [Sample.lyon; Sample.league; Sample.placeholder] ∧
  kept_event_link Sample.league = None ∧
  kept_event_link Sample.placeholder = None ∧
  kept_event_link Sample.lyon = Some {| name := "Grand Prix Lyon"; url := "event?e=2&f=ST" |}.
Proof.
  destruct (event_link_exclusion Sample.listing _ _ _ _ _ eq_refl eq_refl eq_refl eq_refl)
    as [Hout Hevery].
  split; [exact Hout|]. split; [|split].
  - apply (Hevery Sample.league _ _ _ eq_refl eq_refl eq_refl). right. right. reflexivity.
  - apply (Hevery Sample.placeholder _ _ _ eq_refl eq_refl eq_refl). right. left. reflexivity.
  - reflexivity.
Defined.

(** C5 as stated fails: a candidate of the second table whose class is
    "rounded", which is not the placeholder tag, with a text and an address
    and no "league" in its text, does not come out. *)
Lemma class_containing_und_is_dropped :
  get_event_links_from_current_page Sample.rounded_listing = [] ∧
  stable_tables Sample.rounded_listing = Ok [mkTable (Ok []); mkTable (Ok [Sample.rounded])] ∧
  event_candidates [Sample.rounded] = [Sample.rounded] ∧
  a_class Sample.rounded = Ok (Some "rounded") ∧
  Some "rounded" ≠ Some "und" ∧
  a_text Sample.rounded = Ok "Pro Tour" ∧
  PyStr.strip "Pro Tour" ≠ "" ∧
  a_href Sample.rounded = Ok (Some "event?e=6&f=ST") ∧
  PyStr.contains "league" (PyStr.lower (PyStr.strip "Pro Tour")) = false.
Proof. repeat split; try reflexivity; discriminate. Qed.

(** ** The event detail extractor *)

Lemma decks_step_kept (acc : list Deck) (counter : Z) (link : Anchor) :
  decks_step (acc, counter) link =
    match kept_deck_link link with
    | Some (n, u) =>
        (acc ++ [ {| position := counter; deck_name := n; player := "Unknown";
                     deck_url := u |} ], (counter + 1)%Z)
    | None => (acc, counter)
    end.
Proof. reflexivity. Qed.

Lemma decks_foldl (links : list Anchor) (acc : list Deck) (counter : Z) :
  foldl decks_step (acc, counter) links =
    (acc ++ number_from counter (omap kept_deck_link links),
     (counter + Z.of_nat (length (omap kept_deck_link links)))%Z).
Proof.
  revert acc counter. induction links as [|link rest IH]; intros acc counter.
  - simpl. rewrite app_nil_r. f_equal. lia.
  - cbn [foldl omap list_omap]. rewrite decks_step_kept.
    destruct (kept_deck_link link) as [[n u]|].
    + rewrite IH. rewrite <- app_assoc. cbn [number_from length app]. f_equal. lia.
    + apply IH.
Qed.

Lemma number_from_length (kept : list (string * string)) (counter : Z) :
  length (number_from counter kept) = length kept.
Proof.
  revert counter. induction kept as [|[n u] rest IH]; intros counter; simpl; [done|].
  by rewrite IH.
Qed.

Lemma number_from_position (kept : list (string * string)) (counter : Z) (i : nat) (d : Deck) :
  number_from counter kept !! i = Some d → position d = (counter + Z.of_nat i)%Z.
Proof.
  revert counter i. induction kept as [|[n u] rest IH]; intros counter i; simpl; [done|].
  destruct i as [|i]; simpl.
  - intros [= <-]. simpl. lia.
  - intros H. rewrite (IH _ _ H). lia.
Qed.

Lemma number_from_names (kept : list (string * string)) (counter : Z) :
  (fun d => (deck_name d, deck_url d)) <$> number_from counter kept = kept.
Proof.
  revert counter. induction kept as [|[n u] rest IH]; intros counter; simpl; [done|].
  by rewrite IH.
Qed.

Lemma extract_decks_readable (p : Page) (links : list Anchor) :
  anchors p = Ok links →
  extract_decks p = number_from 1 (omap kept_deck_link (deck_candidates links)).
Proof.
  intros Hlinks. unfold extract_decks. rewrite Hlinks. simpl.
  fold (deck_candidates links). by rewrite decks_foldl.
Qed.

Lemma extract_decks_raised (p : Page) (e : exn) :
  anchors p = Raised e → extract_decks p = [].
Proof. intros Hlinks. unfold extract_decks. by rewrite Hlinks. Qed.

Lemma extract_decks_numbered (p : Page) :
  ∃ kept, extract_decks p = number_from 1 kept.
Proof.
  destruct (anchors p) as [links|e] eqn:Hlinks.
  - eexists. by apply extract_decks_readable.
  - exists []. by eapply extract_decks_raised.
Qed.

Section EventDetail.

Context {World : Type} (browser : Browser World).

(** C3, as the code has it.  When the navigation to the event page raises,
    no record is returned.  When it succeeds a record is always returned,
    also after a fault in the date or deck part: the date is "Unknown"
    when reading the page source raised, the decks are empty when the
    search for deck links raised, and a deck link whose reads raise is
    left out while the other decks are kept. *)
Theorem extract_event_data_faults (w : World) (event_url event_name : string) :
  let w1 := fst (get browser w event_url) in
  let p := loaded browser w1 in
  match snd (get browser w event_url) with
  | Raised _ => extract_event_data browser w event_url event_name = (w1, None)
  | Ok _ =>
      extract_event_data browser w event_url event_name =
        (w1, Some {| event_name := event_name; date := extract_date p;
                     event_url := event_url;
                     total_decks := Z.of_nat (length (extract_decks p));
                     decks := extract_decks p |}) ∧
      (∀ e, page_source p = Raised e → extract_date p = "Unknown") ∧
      (∀ e, anchors p = Raised e → extract_decks p = []) ∧
      (∀ links, anchors p = Ok links →
         (fun d => (deck_name d, deck_url d)) <$> extract_decks p =
           omap kept_deck_link (deck_candidates links)) ∧
      (∀ link e, a_text link = Raised e ∨ a_href link = Raised e →
         kept_deck_link link = None)
  end.
Proof.
  unfold extract_event_data.
  destruct (get browser w event_url) as [w1 [[]|e]]; simpl; [|done].
  split; [done|]. split; [|split; [|split]].
  - intros e He. unfold extract_date. by rewrite He.
  - intros e He. by eapply extract_decks_raised.
  - intros links Hlinks. rewrite (extract_decks_readable _ links) by done.
    apply number_from_names.
  - intros link e [He|He]; unfold kept_deck_link, read_deck_link; rewrite He; simpl; [done|].
    by destruct (a_text link).
Qed.

(** C6. Every record the extractor returns has [total_decks] equal to the
    number of its decks and its decks numbered 1, 2, 3, ... in their order;
    the decks are the candidates the loop keeps, so that a skipped link
    takes no number. *)
Theorem decks_densely_numbered (w w' : World) (event_url event_name : string)
    (r : EventRecord) :
  extract_event_data browser w event_url event_name = (w', Some r) →
  total_decks r = Z.of_nat (length (decks r)) ∧
  (∀ i d, decks r !! i = Some d → position d = (Z.of_nat i + 1)%Z) ∧
  (∀ links, anchors (loaded browser w') = Ok links →
     (fun d => (deck_name d, deck_url d)) <$> decks r =
       omap kept_deck_link (deck_candidates links)).
Proof.
  unfold extract_event_data.
  destruct (get browser w event_url) as [w1 [[]|e]]; [|discriminate].
  intros [= <- <-]. simpl. split; [done|]. split.
  - destruct (extract_decks_numbered (loaded browser w1)) as [kept ->].
    intros i d Hd. rewrite (number_from_position _ _ _ _ Hd). lia.
  - intros links Hlinks. rewrite (extract_decks_readable _ links) by done.
    apply number_from_names.
Qed.

End EventDetail.

(** With a session in which navigation raises, no record comes back; on the
    sample page, read without a fault, the record carries the first date of
    the source. *)
Lemma extract_event_data_faults_witness :
  extract_event_data SampleEvent.offline SampleEvent.event_page "event?e=2&f=ST" "Grand Prix Lyon" =
    (SampleEvent.event_page, None).
Proof.
  exact (extract_event_data_faults SampleEvent.offline SampleEvent.event_page
           "event?e=2&f=ST" "Grand Prix Lyon").
Defined.

(** On the sample event page the image link without text is skipped and the
    two decks are numbered 1 and 2. *)
Lemma decks_densely_numbered_witness :
  let r := {| event_name := "Grand Prix Lyon"; date := "01/02/23";
              event_url := "event?e=2&f=ST"; total_decks := 2;
              decks := [ {| position := 1; deck_name := "Mono Red"; player := "Unknown";
                            deck_url := "?e=2&d=10&f=ST" |};
                         {| position := 2; deck_name := "Esper Control"; player := "Unknown";
                            deck_url := "?e=2&d=11&f=ST" |} ] |} in
  total_decks r = Z.of_nat (length (decks r)) ∧
  (∀ i d, decks r !! i = Some d → position d = (Z.of_nat i + 1)%Z) ∧
  (∀ links, anchors SampleEvent.event_page = Ok links →
     (fun d => (deck_name d, deck_url d)) <$> decks r =
       omap kept_deck_link (deck_candidates links)).
Proof.
  exact (decks_densely_numbered static_browser SampleEvent.event_page SampleEvent.event_page
           "event?e=2&f=ST" "Grand Prix Lyon" _ eq_refl).
Defined.

(** C3 as stated fails: on an event page whose source cannot be read and
    one of whose three deck links is stale, a record still comes back, with
    the date "Unknown" and the two other decks; and when the search for
    deck links raises, a record with no deck comes back. *)
Lemma faults_still_yield_a_record :
  page_source SampleEvent.faulty_page = Raised BrowserFault ∧
  a_text SampleEvent.stale = Raised BrowserFault ∧
  snd (extract_event_data static_browser SampleEvent.faulty_page "event?e=2&f=ST" "Grand Prix Lyon") =
    Some {| event_name := "Grand Prix Lyon"; date := "Unknown";
            event_url := "event?e=2&f=ST"; total_decks := 2;
            decks := [ {| position := 1; deck_name := "Mono Red"; player := "Unknown";
                          deck_url := "?e=2&d=10&f=ST" |};
                       {| position := 2; deck_name := "Esper Control"; player := "Unknown";
                          deck_url := "?e=2&d=11&f=ST" |} ] |} ∧
  anchors SampleEvent.unsearchable_page = Raised BrowserFault ∧
  snd (extract_event_data static_browser SampleEvent.unsearchable_page "event?e=2&f=ST" "Grand Prix Lyon") =
    Some {| event_name := "Grand Prix Lyon"; date := "01/02/23";
            event_url := "event?e=2&f=ST"; total_decks := 0; decks := [] |}.
Proof. repeat split. Qed.

(** ** The pagination controller *)

Lemma contains_cons (c : ascii) (needle hay : string) :
  PyStr.contains (String c needle) hay = true → PyStr.contains needle hay = true.
Proof.
  induction hay as [|c' hay IH]; simpl.
  - rewrite orb_false_r. discriminate.
  - intros [Hhere|Hlater]%orb_true_iff; apply orb_true_iff; right.
    + destruct (ascii_dec c c'); [|discriminate].
      destruct hay; simpl; simpl in Hhere; rewrite Hhere; reflexivity.
    + exact (IH Hlater).
Qed.

Lemma page_cp_param_page_cp (n : Z) (a : Anchor) :
  Selector.page_cp_param n a = true → Selector.page_cp n a = true.
Proof.
  unfold Selector.page_cp_param, Selector.page_cp, Selector.attr_contains.
  destruct (href_attr a) as [v|]; [|done].
  intros [H|H]%orb_true_iff; exact (contains_cons _ _ _ H).
Qed.

Lemma first_valid_link_Some (page_links : list Anchor) (link : Anchor) :
  first_valid_link page_links = Ok (Some link) →
  link ∈ page_links ∧ passed_checks link.
Proof.
  induction page_links as [|a rest IH]; simpl; [discriminate|].
  destruct (a_text a) as [text|] eqn:Ht; simpl; [|discriminate].
  destruct (a_href a) as [address|] eqn:Hh; simpl; [|discriminate].
  destruct (a_class a) as [class|] eqn:Hc; simpl; [|discriminate].
  destruct (disabled_link (PyStr.or_empty class)) eqn:Hdis.
  { intros H. destruct (IH H). split; [by right|done]. }
  destruct (not_pagination_link (PyStr.strip text) (PyStr.or_empty address)) eqn:Hnot.
  { intros H. destruct (IH H). split; [by right|done]. }
  intros [= <-]. split; [by left|].
  exists text, address, class. unfold not_pagination_link in Hnot.
  repeat (apply orb_false_iff in Hnot; destruct Hnot as [Hnot ?]).
  repeat split; try done.
  match goal with H : (3 <? _)%nat = false |- _ => apply Nat.ltb_ge in H; exact H end.
Qed.

Lemma try_selectors_Some (p : Page) (selectors : list (Anchor → bool)) (link : Anchor) :
  try_selectors p selectors = Ok (Some link) →
  ∃ links selector,
    anchors p = Ok links ∧ link ∈ links ∧ selector ∈ selectors ∧
    selector link = true ∧ passed_checks link.
Proof.
  induction selectors as [|selector rest IH]; simpl; [discriminate|].
  destruct (anchors p) as [links|] eqn:Hlinks; simpl; [|discriminate].
  destruct (first_valid_link (filter (fun a => selector a = true) links))
    as [[found|]|] eqn:Hfound; simpl; [| |discriminate].
  - intros [= <-]. apply first_valid_link_Some in Hfound as [Hin Hok].
    apply list_elem_of_filter in Hin as [Hsel Hin].
    exists links, selector. repeat split; try done. by left.
  - intros H. destruct (IH H) as (links' & sel & Heq & ? & ? & ? & ?).
    exists links', sel. repeat split; try done. by right.
Qed.

(** C4, as the code has it.  The link method 2 clicks is an anchor of the
    document which one of the three selectors matched: its first text node,
    white space normalised, is the numeral of the next page index, or its
    href attribute contains "cp=" followed by that numeral.  Its class does
    not contain "Nav_PN_no", its address does not contain "archetype", its
    stripped text contains none of "aggro", "control", "combo" and is at
    most 3 characters long. *)
Theorem page_link_checks (p : Page) (current_page : Z) (link : Anchor) :
  page_link_to_click p current_page = Ok (Some link) →
  (∃ links, anchors p = Ok links ∧ link ∈ links) ∧
  (Selector.normalize_space (Selector.xpath_text link) = PyStr.of_Z (current_page + 1) ∨
   Selector.attr_contains ("cp=" ++ PyStr.of_Z (current_page + 1))%string (href_attr link) = true) ∧
  passed_checks link.
Proof.
  unfold page_link_to_click. intros H.
  apply try_selectors_Some in H as (links & selector & Hlinks & Hin & Hsel & Hmatch & Hok).
  split; [by exists links|]. split; [|done].
  unfold Selector.page_selectors in Hsel.
  rewrite !elem_of_cons in Hsel. destruct Hsel as [->|[->|[->|Hnil]]].
  - left. unfold Selector.page_text in Hmatch. by apply String.eqb_eq in Hmatch.
  - right. exact Hmatch.
  - right. apply page_cp_param_page_cp in Hmatch. exact Hmatch.
  - by apply elem_of_nil in Hnil.
Qed.

(** From page 1 the link with [cp=2] in its address and the three
    characters "2 >" as text is taken. *)
Lemma page_link_checks_witness :
  (∃ links, anchors SamplePaging.listing_1 = Ok links ∧ SamplePaging.arrow ∈ links) ∧
  (Selector.normalize_space (Selector.xpath_text SamplePaging.arrow) = PyStr.of_Z (1 + 1) ∨
   Selector.attr_contains ("cp=" ++ PyStr.of_Z (1 + 1))%string (href_attr SamplePaging.arrow) = true) ∧
  passed_checks SamplePaging.arrow.
Proof.
  exact (page_link_checks SamplePaging.listing_1 1 SamplePaging.arrow eq_refl).
Defined.

(** C4 as stated fails: from page 99 the link whose text is "100", three
    characters long and without an address, is taken; from page 1 the link
    whose text "2 >" is three characters long and no numeral is taken.  A
    text of four characters is what gets a link rejected. *)
Lemma three_character_link_is_taken :
  page_link_to_click SamplePaging.listing_99 99 = Ok (Some SamplePaging.page_100) ∧
  a_text SamplePaging.page_100 = Ok "100" ∧
  (2 < String.length (PyStr.strip "100"))%nat ∧
  href_attr SamplePaging.page_100 = None ∧
  a_href SamplePaging.page_100 = Ok None ∧
  page_link_to_click SamplePaging.listing_1 1 = Ok (Some SamplePaging.arrow) ∧
  a_text SamplePaging.arrow = Ok "2 >" ∧
  (2 < String.length (PyStr.strip "2 >"))%nat ∧
  page_link_to_click SamplePaging.listing_padded 1 = Ok None.
Proof. repeat split; simpl; lia. Qed.

(** ** The page loop *)

Section PageLoop.

Context {World : Type} (browser : Browser World).

(** From any page index up to 5000, as many turns as indices are left up
    to 5000 end the loop, and more fuel changes nothing. *)
Lemma page_loop_ends (fuel : nat) (w : World) (current_page : Z)
    (all_event_links : list EventLink) :
  (1 ≤ current_page ≤ 5000)%Z →
  (5001 - current_page ≤ Z.of_nat fuel)%Z →
  ∃ w' r,
    page_loop browser fuel w current_page all_event_links = Some (w', r) ∧
    (∀ extra, page_loop browser (fuel + extra) w current_page all_event_links = Some (w', r)) ∧
    match r with
    | Ok (final_page, _) => (current_page ≤ final_page ≤ 5001)%Z
    | Raised _ => True
    end.
Proof.
  revert w current_page all_event_links.
  induction fuel as [|fuel IH]; intros w current_page all_event_links Hpage Hfuel; [lia|].
  cbn [page_loop Nat.add].
  destruct (match get_event_links_from_current_page (loaded browser w) with
            | [] => _
            | _ :: _ => _
            end) as [links|e].
  2: { exists w, (Raised e). done. }
  destruct (go_to_next_page browser w current_page) as [w1 has_next_page].
  destruct has_next_page; cbn [negb].
  - destruct (Z.ltb_spec 5000 (current_page + 1)) as [Hlimit|Hbelow].
    + exists w1, (Ok ((current_page + 1)%Z, links)). split; [done|]. split; [done|]. lia.
    + destruct (IH w1 (current_page + 1)%Z links) as (w' & r & Hrun & Hmore & Hbound); [lia|lia|].
      exists w', r. split; [done|]. split; [done|].
      destruct r as [[final_page ?]|]; [lia|done].
  - exists w1, (Ok (current_page, links)). split; [done|]. split; [done|]. lia.
Qed.

(** C7. Whatever the site answers, 5000 turns end the page loop started at
    page 1: it returns with 5000 units of fuel, returns the same with any
    larger amount, and leaves the page counter between 1 and 5001, the
    value at which the safety test stops it; [scrape_from_url] returns as
    well. *)
Theorem page_loop_within_safety_limit (w : World) (extra : nat) :
  (∃ w' r,
     page_loop browser (Z.to_nat 5000) w 1 [] = Some (w', r) ∧
     page_loop browser (Z.to_nat 5000 + extra) w 1 [] = Some (w', r) ∧
     match r with
     | Ok (final_page, _) => (1 ≤ final_page ≤ 5001)%Z
     | Raised _ => True
     end) ∧
  (∀ all_events_data start_url,
     is_Some (scrape_from_url browser (Z.to_nat 5000 + extra) w all_events_data start_url)).
Proof.
  split.
  - destruct (page_loop_ends (Z.to_nat 5000) w 1 []) as (w' & r & Hrun & Hmore & Hbound);
      [lia|lia|].
    exists w', r. split; [done|]. split; [apply Hmore|done].
  - intros all_events_data start_url. unfold scrape_from_url.
    destruct (get browser w start_url) as [w1 [[]|e]]; [|done].
    destruct (page_loop_ends (Z.to_nat 5000) w1 1 []) as (w' & r & _ & Hmore & _);
      [lia|lia|].
    rewrite Hmore. destruct r as [[final_page links]|e]; [|done].
    destruct (length links =? 0)%nat; done.
Qed.

End PageLoop.

(** A site that always shows a working "Next" link is left after exactly
    5000 turns, with the counter at 5001; 4999 turns are not enough. *)
Example endless_site_stops :
  page_loop static_browser (Z.to_nat 5000) SamplePaging.endless 1 [] =
    Some (SamplePaging.endless, Ok (5001%Z, [])) ∧
  page_loop static_browser (Z.to_nat 4999) SamplePaging.endless 1 [] = None.
Proof. split; vm_compute; reflexivity. Qed.

(** ** The exporter *)

Lemma string_app_nil_r (s : string) : (s ++ "")%string = s.
Proof.
  induction s as [|c s IH]; [done|].
  change (String c (s ++ "")%string = String c s). by rewrite IH.
Qed.

Lemma string_app_assoc (s t u : string) : ((s ++ t) ++ u)%string = (s ++ (t ++ u))%string.
Proof.
  induction s as [|c s IH]; [done|].
  change (String c ((s ++ t) ++ u)%string = String c (s ++ (t ++ u))%string). by rewrite IH.
Qed.

Lemma csv_text_rows_app (fmt : CsvFormat) (a b : list DeckRow.t) :
  csv_text fmt false (a ++ b) = (csv_text fmt false a ++ csv_text fmt false b)%string.
Proof.
  unfold csv_text. change ("" ++ ?x)%string with x.
  induction a as [|row a IH]; [done|].
  cbn [app fold_right]. rewrite IH. by rewrite string_app_assoc.
Qed.

Lemma csv_text_header (fmt : CsvFormat) (frame : list DeckRow.t) :
  csv_text fmt true frame = (header_line fmt ++ csv_text fmt false frame)%string.
Proof. reflexivity. Qed.

Lemma flatten_step_app (acc : list DeckRow.t) (event : EventRecord) :
  flatten_step acc event = acc ++ (row_of event <$> decks event).
Proof.
  unfold flatten_step. generalize (decks event) as ds. intros ds. revert acc.
  induction ds as [|d ds IH]; intros acc; simpl; [by rewrite app_nil_r|].
  rewrite IH. by rewrite <- app_assoc.
Qed.

Lemma flatten_foldl (events : list EventRecord) (acc : list DeckRow.t) :
  foldl flatten_step acc events =
    acc ++ flat_map (fun event => row_of event <$> decks event) events.
Proof.
  revert acc. induction events as [|event events IH]; intros acc; simpl.
  - by rewrite app_nil_r.
  - rewrite IH, flatten_step_app. by rewrite <- app_assoc.
Qed.

Lemma flatten_flat_map (events : list EventRecord) :
  flatten events = flat_map (fun event => row_of event <$> decks event) events.
Proof. unfold flatten. by rewrite flatten_foldl. Qed.

Lemma flatten_no_decks (events : list EventRecord) :
  Forall (fun event => decks event = []) events → flatten events = [].
Proof.
  rewrite flatten_flat_map. induction 1 as [|event events Hnone _ IH]; simpl; [done|].
  by rewrite Hnone, IH.
Qed.

(** The later turns of the batch loop: started at a positive index with a
    file holding [written], they append the rows from that index on. *)
Lemma later_chunks (fmt : CsvFormat) (df : list DeckRow.t) (size fuel i : nat) (written : string) :
  (0 < size)%nat → (0 < i)%nat → (length df - i ≤ fuel)%nat →
  foldl (chunk_step fmt df size) (Some written) (range_from fuel i (length df) size) =
    Some (written ++ csv_text fmt false (drop i df))%string.
Proof.
  intros Hsize. revert i written.
  induction fuel as [|fuel IH]; intros i written Hi Hfuel.
  - simpl. rewrite drop_ge by lia. unfold csv_text. simpl.
    change ("" ++ "")%string with "". by rewrite string_app_nil_r.
  - cbn [range_from]. destruct (Nat.ltb_spec i (length df)) as [Hin|Hout].
    + cbn [foldl]. unfold chunk_step at 2.
      destruct (Nat.eqb_spec i 0) as [->|_]; [lia|].
      cbn [to_csv default]. rewrite IH by lia.
      rewrite string_app_assoc, <- csv_text_rows_app.
      rewrite <- drop_drop, take_drop. done.
    + simpl. rewrite drop_ge by lia. unfold csv_text. simpl.
      change ("" ++ "")%string with "". by rewrite string_app_nil_r.
Qed.

(** Batches of any positive size add up to the single write. *)
Lemma write_chunks_single (fmt : CsvFormat) (row : DeckRow.t) (rest : list DeckRow.t) (size : nat)
    (file : option string) :
  (0 < size)%nat →
  write_chunks fmt (row :: rest) size file = to_csv fmt (row :: rest) mode_w true file.
Proof.
  intros Hsize. unfold write_chunks, py_range.
  set (df := row :: rest).
  change (length df) with (S (length rest)) at 1.
  cbn [range_from]. destruct (Nat.ltb_spec 0 (length df)) as [_|Hout]; [|simpl in Hout; lia].
  cbn [foldl]. unfold chunk_step at 2. cbn [Nat.eqb to_csv].
  rewrite later_chunks; [|done|lia|simpl; lia].
  cbn [to_csv]. f_equal. rewrite !csv_text_header, string_app_assoc, <- csv_text_rows_app.
  cbn [Nat.add drop]. by rewrite take_drop.
Qed.

Lemma chunk_size_positive : (0 < chunk_size)%nat.
Proof. unfold chunk_size. lia. Qed.

(** C8. The batched write of a frame that has rows leaves the same bytes in
    the output file as one [to_csv] call with the header, whatever the file
    held before; so [save_data], which takes the batched path above 100000
    rows, always leaves what the procedure without batching leaves. *)
Theorem chunked_write_same_bytes (fmt : CsvFormat) (file : option string) :
  (∀ row rest,
     write_chunks fmt (row :: rest) chunk_size file =
       Some (header_line fmt ++
             fold_right (fun r text => row_line fmt r ++ text) "" (row :: rest))%string) ∧
  (∀ all_events_data,
     save_data fmt all_events_data file = save_data_single_write fmt all_events_data file).
Proof.
  split.
  - intros row rest. by rewrite write_chunks_single by apply chunk_size_positive.
  - intros [|event events]; [done|].
    unfold save_data, save_data_single_write, write_decks.
    destruct (flatten (event :: events)) as [|row rest]; [done|].
    destruct (100000 <? Z.of_nat (length (row :: rest)))%Z; [|done].
    by rewrite write_chunks_single by apply chunk_size_positive.
Qed.

(** Five rows written in batches of two: the header comes once. *)
Example batches_of_two :
  let d n := {| position := n; deck_name := "D"; player := "Unknown"; deck_url := "d" |} in
  let df := flatten [ {| event_name := "E"; date := "01/02/23"; event_url := "u";
                         total_decks := 5; decks := [d 1; d 2; d 3; d 4; d 5]%Z |} ] in
  py_range 0 (length df) 2 = [0; 2; 4]%nat ∧
  write_chunks PlainCsv.format df 2 (Some "old") = to_csv PlainCsv.format df mode_w true None.
Proof. split; reflexivity. Qed.

(** The rows of the sample event are the ones the specification lists. *)
Example flatten_sample :
  flatten [SampleExport.lyon] =
    [ {| DeckRow.event_name := "E1"; DeckRow.event_date := "01/02/23"; DeckRow.event_url := "u1";
         DeckRow.deck_position := 1; DeckRow.deck_name := "D1"; DeckRow.player_name := "Unknown";
         DeckRow.deck_url := "d1" |} ].
Proof. reflexivity. Qed.

(** C9. When there is no row to write, because the list of events is empty
    or no event has a deck, [save_data] leaves the output file as it was: a
    file that did not exist still does not. *)
Theorem no_rows_no_file (fmt : CsvFormat) (all_events_data : list EventRecord)
    (file : option string) :
  Forall (fun event => decks event = []) all_events_data →
  flatten all_events_data = [] ∧
  fst (save_data fmt all_events_data file) = file.
Proof.
  intros Hnone. pose proof (flatten_no_decks _ Hnone) as Hflat. split; [done|].
  unfold save_data. destruct all_events_data; [done|]. by rewrite Hflat.
Qed.

Lemma no_rows_no_file_witness :
  (flatten [SampleExport.no_decks; SampleExport.no_decks] = [] ∧
   fst (save_data PlainCsv.format [SampleExport.no_decks; SampleExport.no_decks] None) = None) ∧
  (flatten [] = [] ∧ fst (save_data PlainCsv.format [] None) = None).
Proof.
  split.
  - apply (no_rows_no_file PlainCsv.format [SampleExport.no_decks; SampleExport.no_decks] None).
    repeat constructor.
  - apply (no_rows_no_file PlainCsv.format [] None). constructor.
Defined.

(** C10. With at least one event and no deck in any of them, [save_data]
    leaves the output file as it was and ends with the exception raised for
    the unbound local [csv_filename], which is bound only where rows are
    written. *)
Theorem no_decks_unbound_filename (fmt : CsvFormat) (all_events_data : list EventRecord)
    (file : option string) :
  all_events_data ≠ [] →
  Forall (fun event => decks event = []) all_events_data →
  save_data fmt all_events_data file = (file, Raised (UnboundLocalError "csv_filename")).
Proof.
  intros Hsome Hnone. pose proof (flatten_no_decks _ Hnone) as Hflat.
  unfold save_data. destruct all_events_data; [done|]. by rewrite Hflat.
Qed.

Lemma no_decks_unbound_filename_witness :
  save_data PlainCsv.format [SampleExport.no_decks] None =
    (None, Raised (UnboundLocalError "csv_filename")).
Proof.
  apply (no_decks_unbound_filename PlainCsv.format [SampleExport.no_decks] None).
  - discriminate.
  - repeat constructor.
Defined.

(** * Further properties *)

(** ** The deduplicator, continued *)

Lemma keep_new_fresh (l : list EventLink) (seen : gset string) :
  NoDup (url <$> l) → (∀ e, e ∈ l → url e ∉ seen) → keep_new seen l = l.
Proof.
  revert seen. induction l as [|e rest IH]; intros seen Hdup Hfresh; [done|].
  rewrite fmap_cons in Hdup. apply NoDup_cons in Hdup as [Hhead Hdup].
  simpl. destruct (decide (url e ∈ seen)) as [Hin|_].
  - exfalso. apply (Hfresh e); [by left|done].
  - f_equal. apply IH; [done|]. intros e' He'. 
    assert (url e' ≠ url e).
    { intros Heq. apply Hhead. rewrite <- Heq. apply list_elem_of_fmap. by exists e'. }
    assert (url e' ∉ seen) by (apply Hfresh; by right).
    set_solver.
Qed.

Lemma keep_new_filter (l : list EventLink) (seen other : gset string) :
  keep_new (seen ∪ other) l = filter (fun e => url e ∉ seen) (keep_new other l).
Proof.
  revert other. induction l as [|e rest IH]; intros other; [done|].
  simpl. destruct (decide (url e ∈ other)) as [Hother|Hother].
  - rewrite decide_True by set_solver. apply IH.
  - destruct (decide (url e ∈ seen)) as [Hseen|Hseen].
    + rewrite decide_True by set_solver.
      rewrite filter_cons_False by (intros H; by apply H).
      rewrite <- IH. f_equal. set_solver.
    + rewrite decide_False by set_solver.
      rewrite filter_cons_True by done.
      f_equal. rewrite <- IH. f_equal. set_solver.
Qed.

Lemma keep_new_app (l1 l2 : list EventLink) (seen : gset string) :
  keep_new seen (l1 ++ l2) =
    keep_new seen l1 ++ keep_new (seen ∪ list_to_set (url <$> l1)) l2.
Proof.
  revert seen. induction l1 as [|e rest IH]; intros seen; simpl.
  - f_equal. set_solver.
  - destruct (decide (url e ∈ seen)) as [Hin|Hout].
    + rewrite IH. do 2 f_equal. set_solver.
    + simpl. rewrite IH. do 3 f_equal. set_solver.
Qed.

(** X1. A list without repeated addresses comes back unchanged, so that
    removing duplicates twice is the same as removing them once. *)
Theorem deduplicate_fixed (l : list EventLink) :
  (NoDup (url <$> l) → deduplicate l = l) ∧
  deduplicate (deduplicate l) = deduplicate l.
Proof.
  assert (Hfixed : ∀ k : list EventLink, NoDup (url <$> k) → deduplicate k = k).
  { intros k Hk. rewrite deduplicate_keep_new. apply keep_new_fresh; [done|set_solver]. }
  split; [apply Hfixed|]. apply Hfixed.
  rewrite deduplicate_keep_new. apply keep_new_NoDup.
Qed.

Lemma deduplicate_fixed_witness :
  let l := [ {| name := "a"; url := "u1" |}; {| name := "b"; url := "u2" |} ] in
  deduplicate l = l ∧ deduplicate (deduplicate l) = deduplicate l.
Proof.
  destruct (deduplicate_fixed [ {| name := "a"; url := "u1" |}; {| name := "b"; url := "u2" |} ])
    as [Hfixed Htwice].
  split; [|exact Htwice]. apply Hfixed.
  apply (bool_decide_unpack _). vm_compute. exact I.
Defined.

(** X2. Removing duplicates from the links of several pages put end to end
    keeps the deduplicated links of the earlier pages and, after them, the
    deduplicated links of the later pages whose address the earlier pages
    do not have. *)
Theorem deduplicate_app (l1 l2 : list EventLink) :
  deduplicate (l1 ++ l2) =
    deduplicate l1 ++ filter (fun e => url e ∉ url <$> l1) (deduplicate l2).
Proof.
  rewrite !deduplicate_keep_new, keep_new_app. f_equal.
  rewrite (union_comm_L ∅), keep_new_filter.
  apply list_filter_iff. intros e. by rewrite elem_of_list_to_set.
Qed.

(** ** The links and decks that come out *)

Lemma kept_event_link_Some (element : Anchor) (link : EventLink) :
  kept_event_link element = Some link →
  ∃ text class,
    a_text element = Ok text ∧ a_href element = Ok (Some (url link)) ∧
    a_class element = Ok class ∧
    name link = PyStr.strip text ∧ name link ≠ "" ∧ url link ≠ "" ∧
    PyStr.contains "und" (PyStr.or_empty class) = false ∧
    PyStr.contains "league" (PyStr.lower (name link)) = false.
Proof.
  unfold kept_event_link, read_event_element.
  destruct (a_text element) as [text|]; simpl; [|discriminate].
  destruct (a_href element) as [address|]; simpl; [|discriminate].
  destruct (a_class element) as [class|]; simpl; [|discriminate].
  unfold event_link_of.
  destruct (PyStr.truthy (PyStr.strip text)) eqn:Htext; simpl; [|discriminate].
  destruct (PyStr.truthy_opt address) eqn:Haddress; simpl; [|discriminate].
  destruct (PyStr.contains "und" (PyStr.or_empty class)) eqn:Hund; [discriminate|].
  destruct (PyStr.contains "league" (PyStr.lower (PyStr.strip text))) eqn:Hleague; [discriminate|].
  intros [= <-]. simpl. exists text, class.
  destruct address as [address|]; [|discriminate]. simpl in *.
  repeat split; try done.
  - intros Hempty. by rewrite Hempty in Htext.
  - intros Hempty. by rewrite Hempty in Haddress.
Qed.

(** X3. Whatever the document and whatever raises, every link the page
    event extractor returns has a name and an address that are not empty
    and a name without "league" in any case; it was read from an anchor of
    the second qualifying table that matches the event selector, whose
    class does not contain "und": the name is the stripped text, the
    address what the href read returned. *)
Theorem event_links_well_formed (p : Page) (link : EventLink) :
  link ∈ get_event_links_from_current_page p →
  name link ≠ "" ∧ url link ≠ "" ∧
  PyStr.contains "league" (PyStr.lower (name link)) = false ∧
  ∃ tables second seconds element text class,
    stable_tables p = Ok tables ∧ tables !! 1%nat = Some second ∧
    table_anchors second = Ok seconds ∧ element ∈ seconds ∧
    Selector.event_link element = true ∧
    a_text element = Ok text ∧ name link = PyStr.strip text ∧
    a_href element = Ok (Some (url link)) ∧
    a_class element = Ok class ∧ PyStr.contains "und" (PyStr.or_empty class) = false.
Proof.
  intros Hin.
  destruct (links_from_second_table p link Hin)
    as (tables & second & seconds & Htables & Hsecond & Hanchors & Hlink).
  rewrite collect_event_links_omap in Hlink.
  apply list_elem_of_omap in Hlink as (element & Hcand & Hkept).
  apply list_elem_of_filter in Hcand as [Hsel Helem].
  destruct (kept_event_link_Some element link Hkept)
    as (text & class & ? & ? & ? & ? & ? & ? & ? & ?).
  repeat split; try done.
  by exists tables, second, seconds, element, text, class.
Qed.

Lemma event_links_well_formed_witness :
  let link := {| name := "Grand Prix Lyon"; url := "event?e=2&f=ST" |} in
  name link ≠ "" ∧ url link ≠ "" ∧
  PyStr.contains "league" (PyStr.lower (name link)) = false ∧
  ∃ tables second seconds element text class,
    stable_tables Sample.listing = Ok tables ∧ tables !! 1%nat = Some second ∧
    table_anchors second = Ok seconds ∧ element ∈ seconds ∧
    Selector.event_link element = true ∧
    a_text element = Ok text ∧ name link = PyStr.strip text ∧
    a_href element = Ok (Some (url link)) ∧
    a_class element = Ok class ∧ PyStr.contains "und" (PyStr.or_empty class) = false.
Proof.
  apply (event_links_well_formed Sample.listing
           {| name := "Grand Prix Lyon"; url := "event?e=2&f=ST" |}).
  vm_compute. left.
Defined.

Lemma kept_deck_link_Some (link : Anchor) (n u : string) :
  kept_deck_link link = Some (n, u) →
  ∃ text, a_text link = Ok text ∧ n = PyStr.strip text ∧ a_href link = Ok (Some u) ∧
          n ≠ "" ∧ PyStr.contains "&d=" u = true.
Proof.
  unfold kept_deck_link, read_deck_link.
  destruct (a_text link) as [text|]; simpl; [|discriminate].
  destruct (a_href link) as [address|]; simpl; [|discriminate].
  destruct (PyStr.truthy (PyStr.strip text)) eqn:Htext; simpl; [|discriminate].
  destruct (PyStr.truthy_opt address) eqn:Haddress; simpl; [|discriminate].
  destruct (PyStr.contains "&d=" (PyStr.or_empty address)) eqn:Hmark; [|discriminate].
  intros [= <- <-]. exists text.
  destruct address as [address|]; [|discriminate]. simpl in *.
  repeat split; try done. intros Hempty. by rewrite Hempty in Htext.
Qed.

Lemma number_from_elem (kept : list (string * string)) (counter : Z) (d : Deck) :
  d ∈ number_from counter kept →
  player d = "Unknown" ∧ (deck_name d, deck_url d) ∈ kept.
Proof.
  revert counter. induction kept as [|[n u] rest IH]; intros counter; simpl.
  - by intros ?%elem_of_nil.
  - intros [->|Hin]%elem_of_cons; simpl.
    + split; [done|by left].
    + destruct (IH _ Hin). split; [done|by right].
Qed.

(** X4. Every deck of a record the event detail extractor returns has the
    player "Unknown", a name that is not empty and an address that contains
    "&d="; it was read from an anchor of the event page that matches the
    deck selector, its name being the stripped text of the anchor. *)
Theorem decks_well_formed {World : Type} (browser : Browser World) (w w' : World)
    (event_url event_name : string) (r : EventRecord) (d : Deck) :
  extract_event_data browser w event_url event_name = (w', Some r) →
  d ∈ decks r →
  player d = "Unknown" ∧ deck_name d ≠ "" ∧ PyStr.contains "&d=" (deck_url d) = true ∧
  ∃ links link text,
    anchors (loaded browser w') = Ok links ∧ link ∈ links ∧
    Selector.deck_link link = true ∧
    a_text link = Ok text ∧ deck_name d = PyStr.strip text ∧
    a_href link = Ok (Some (deck_url d)).
Proof.
  unfold extract_event_data.
  destruct (get browser w event_url) as [w1 [[]|e]]; [|discriminate].
  intros [= <- <-]. simpl.
  destruct (anchors (loaded browser w1)) as [links|e] eqn:Hlinks.
  - rewrite (extract_decks_readable _ links) by done. intros Hd.
    apply number_from_elem in Hd as [Hplayer Hkept].
    apply list_elem_of_omap in Hkept as (link & Hcand & Hkept).
    apply list_elem_of_filter in Hcand as [Hsel Hlink].
    destruct (kept_deck_link_Some link _ _ Hkept) as (text & ? & ? & ? & ? & ?).
    repeat split; try done. by exists links, link, text.
  - rewrite (extract_decks_raised _ e) by done. by intros ?%elem_of_nil.
Qed.

Lemma decks_well_formed_witness :
  let d := {| position := 2; deck_name := "Esper Control"; player := "Unknown";
              deck_url := "?e=2&d=11&f=ST" |} in
  player d = "Unknown" ∧ deck_name d ≠ "" ∧ PyStr.contains "&d=" (deck_url d) = true ∧
  ∃ links link text,
    anchors SampleEvent.event_page = Ok links ∧ link ∈ links ∧
    Selector.deck_link link = true ∧
    a_text link = Ok text ∧ deck_name d = PyStr.strip text ∧
    a_href link = Ok (Some (deck_url d)).
Proof.
  apply (decks_well_formed static_browser SampleEvent.event_page SampleEvent.event_page
           "event?e=2&f=ST" "Grand Prix Lyon" _ _ eq_refl).
  vm_compute. right. left.
Defined.

(** ** The date of an event *)





(** On the sample event page the first of the two dates of the source is
    taken. *)
Example extract_date_sample :
  extract_date SampleEvent.event_page = "01/02/23" ∧
  extract_date SampleEvent.faulty_page = "Unknown" ∧
  PyStr.search_date "round 1/2/23, 123/45/6789" = Some "23/45/67".
Proof. repeat split. Qed.

(** ** The pagination controller, continued *)

Lemma filter_head {A : Type} (P : A → Prop) `{∀ x, Decision (P x)} (l : list A)
    (x : A) (rest : list A) :
  filter P l = x :: rest →
  ∃ before after, l = before ++ x :: after ∧ Forall (fun y => ¬ P y) before ∧ P x.
Proof.
  induction l as [|y l IH]; [done|].
  rewrite filter_cons. destruct (decide (P y)) as [Hy|Hy].
  - intros [= -> <-]. exists [], l. repeat split; [constructor|done].
  - intros Hrest. destruct (IH Hrest) as (before & after & -> & Hbefore & Hx).
    exists (y :: before), after. repeat split; [by constructor|done].
Qed.

Lemma find_next_link_Some (p : Page) (link : Anchor) :
  find_next_link p = Ok (Some link) →
  ∃ divs last_nav_div links before after,
    nav_divs p = Ok (divs ++ [last_nav_div]) ∧
    nav_anchors last_nav_div = Ok links ∧
    links = before ++ link :: after ∧
    Forall (fun a => Selector.next_link a ≠ true) before ∧
    Selector.next_link link = true.
Proof.
  unfold find_next_link.
  destruct (nav_divs p) as [divs|] eqn:Hdivs; simpl; [|discriminate].
  destruct (last divs) as [last_nav_div|] eqn:Hlast; [|discriminate].
  apply last_Some in Hlast as [front ->].
  destruct (nav_anchors last_nav_div) as [links|] eqn:Hlinks; simpl; [|discriminate].
  destruct (filter (fun a => Selector.next_link a = true) links) as [|first rest] eqn:Hfilter.
  - destruct (nav_text last_nav_div); discriminate.
  - intros [= <-]. apply filter_head in Hfilter as (before & after & -> & Hbefore & Hfirst).
    by exists front, last_nav_div, (before ++ first :: after), before, after.
Qed.

Lemma next_link_to_click_Some (p : Page) (link : Anchor) :
  next_link_to_click p = Ok (Some link) →
  find_next_link p = Ok (Some link) ∧
  a_enabled link = Ok true ∧
  ∃ class, a_class link = Ok class ∧
           PyStr.contains "Nav_PN_no" (PyStr.or_empty class) = false.
Proof.
  unfold next_link_to_click.
  destruct (find_next_link p) as [[found|]|] eqn:Hfound; simpl; [|discriminate|discriminate].
  destruct (a_class found) as [class|] eqn:Hclass; simpl; [|discriminate].
  destruct (a_href found); simpl; [|discriminate].
  destruct (a_text found); simpl; [|discriminate].
  destruct (a_enabled found) as [enabled|] eqn:Henabled; simpl; [|discriminate].
  destruct (PyStr.contains "Nav_PN_no" (PyStr.or_empty class)) eqn:Hmark; [discriminate|].
  simpl. destruct enabled; [|discriminate].
  intros [= <-]. repeat split; try done. by exists class.
Qed.

(** X6. The link method 1 decides to click is the first anchor of the last
    navigation block whose first text node contains "Next", "next" or
    "NEXT"; it is enabled and its class does not contain "Nav_PN_no".
    Anchors of earlier navigation blocks are never chosen by it. *)
Theorem next_link_from_last_block (p : Page) (link : Anchor) :
  next_link_to_click p = Ok (Some link) →
  ∃ divs last_nav_div before after class,
    nav_divs p = Ok (divs ++ [last_nav_div]) ∧
    nav_anchors last_nav_div = Ok (before ++ link :: after) ∧
    Forall (fun a => Selector.next_link a ≠ true) before ∧
    Selector.next_link link = true ∧
    a_enabled link = Ok true ∧
    a_class link = Ok class ∧
    PyStr.contains "Nav_PN_no" (PyStr.or_empty class) = false.
Proof.
  intros Hclick.
  apply next_link_to_click_Some in Hclick as (Hfound & Henabled & class & Hclass & Hmark).
  apply find_next_link_Some in Hfound
    as (divs & last_nav_div & links & before & after & Hdivs & Hlinks & -> & Hbefore & Hnext).
  by exists divs, last_nav_div, before, after, class.
Qed.

Lemma next_link_from_last_block_witness :
  ∃ divs last_nav_div before after class,
    nav_divs SamplePaging.endless = Ok (divs ++ [last_nav_div]) ∧
    nav_anchors last_nav_div = Ok (before ++ SamplePaging.next :: after) ∧
    Forall (fun a => Selector.next_link a ≠ true) before ∧
    Selector.next_link SamplePaging.next = true ∧
    a_enabled SamplePaging.next = Ok true ∧
    a_class SamplePaging.next = Ok class ∧
    PyStr.contains "Nav_PN_no" (PyStr.or_empty class) = false.
Proof.
  exact (next_link_from_last_block SamplePaging.endless SamplePaging.next eq_refl).
Defined.

(** X7. Two documents whose last navigation block is the same make method
    1 decide the same, whatever their earlier navigation blocks hold; a
    document without navigation block gives it no link. *)
Theorem next_link_ignores_earlier_blocks (p p' : Page) (divs divs' : list NavDiv)
    (last_nav_div : NavDiv) :
  nav_divs p = Ok (divs ++ [last_nav_div]) →
  nav_divs p' = Ok (divs' ++ [last_nav_div]) →
  next_link_to_click p = next_link_to_click p'.
Proof.
  intros Hp Hp'. unfold next_link_to_click, find_next_link.
  rewrite Hp, Hp'. simpl. by rewrite !last_snoc.
Qed.

(** Two documents that share their last navigation block, one of them with
    a block of its own before it. *)
Lemma next_link_ignores_earlier_blocks_witness :
  next_link_to_click SamplePaging.endless =
    next_link_to_click
      (readable_page [] [mkNavDiv (Ok [SamplePaging.next]) (Ok "Prev Next")] [] "").
Proof.
  apply (next_link_ignores_earlier_blocks _ _ [mkNavDiv (Ok []) (Ok "")] []
           (mkNavDiv (Ok [SamplePaging.next]) (Ok "Prev Next"))); reflexivity.
Defined.

Section NextPage.

Context {World : Type} (browser : Browser World).

Lemma click_through_true (w w' : World) (link : Anchor) :
  click_through browser w link = (w', Ok true) →
  click browser w link = (w', Ok tt) ∧ ∃ u, current_url (loaded browser w') = Ok u.
Proof.
  unfold click_through. destruct (click browser w link) as [w1 [[]|e]]; simpl.
  - destruct (current_url (loaded browser w1)) as [u|] eqn:Hurl; simpl; [|discriminate].
    intros [= <-]. split; [done|]. by exists u.
  - discriminate.
Qed.

Lemma click_through_bool (w w' : World) (link : Anchor) (b : bool) :
  click_through browser w link = (w', Ok b) → b = true.
Proof.
  unfold click_through. destruct (click browser w link) as [w1 [[]|e]]; simpl.
  - destruct (current_url (loaded browser w1)); simpl; congruence.
  - discriminate.
Qed.

(** X8. The pagination block reports a next page only after a click that
    did not raise, followed by a successful read of the address: the link
    clicked is the one method 1 chose or, when method 1 chose none, the one
    method 2 chose, its class never contains "Nav_PN_no", and the browser is
    left in the state the click produced. *)
Theorem next_page_after_click (w w' : World) (current_page : Z) :
  go_to_next_page browser w current_page = (w', true) →
  ∃ link class,
    click browser w link = (w', Ok tt) ∧
    (∃ u, current_url (loaded browser w') = Ok u) ∧
    a_class link = Ok class ∧
    PyStr.contains "Nav_PN_no" (PyStr.or_empty class) = false ∧
    (next_link_to_click (loaded browser w) = Ok (Some link) ∨
     (next_link_to_click (loaded browser w) = Ok None ∧
      page_link_to_click (loaded browser w) current_page = Ok (Some link))).
Proof.
  unfold go_to_next_page, next_page_body.
  destruct (next_link_to_click (loaded browser w)) as [[next_link|]|] eqn:Hfirst.
  - destruct (click_through browser w next_link) as [w1 [b|e]] eqn:Hclick; simpl;
      [|discriminate].
    intros [= <- ->]. apply click_through_true in Hclick as [Hclick Hurl].
    apply next_link_to_click_Some in Hfirst as (_ & _ & class & Hclass & Hmark).
    exists next_link, class. repeat split; try done. by left.
  - destruct (page_link_to_click (loaded browser w) current_page) as [[page_link|]|] eqn:Hsecond.
    + destruct (click_through browser w page_link) as [w1 [b|e]] eqn:Hclick; simpl;
        [|discriminate].
      intros [= <- ->]. apply click_through_true in Hclick as [Hclick Hurl].
      pose proof Hsecond as Hchecks. unfold page_link_to_click in Hchecks.
      apply try_selectors_Some in Hchecks
        as (_ & _ & _ & _ & _ & _ & text & address & class & _ & _ & Hclass & _ & Hmark & _).
      exists page_link, class. repeat split; try done. by right.
    + destruct (list_pagination_links (loaded browser w)); simpl; discriminate.
    + simpl. discriminate.
  - simpl. discriminate.
Qed.

End NextPage.

Lemma next_page_after_click_witness :
  ∃ link class,
    click static_browser SamplePaging.endless link = (SamplePaging.endless, Ok tt) ∧
    (∃ u, current_url (loaded static_browser SamplePaging.endless) = Ok u) ∧
    a_class link = Ok class ∧
    PyStr.contains "Nav_PN_no" (PyStr.or_empty class) = false ∧
    (next_link_to_click (loaded static_browser SamplePaging.endless) = Ok (Some link) ∨
     (next_link_to_click (loaded static_browser SamplePaging.endless) = Ok None ∧
      page_link_to_click (loaded static_browser SamplePaging.endless) 1 = Ok (Some link))).
Proof.
  exact (next_page_after_click static_browser SamplePaging.endless SamplePaging.endless 1 eq_refl).
Defined.

(** ** [scrape_from_url] as a whole *)



Section WholeScrape.

Context {World : Type} (browser : Browser World).






End WholeScrape.


(** ** The exporter, continued *)

(** X10. The rows are those of the first event in the order of its decks,
    then those of the second event, and so on: flattening goes through
    concatenation, one event gives one row per deck, and the number of rows
    is the sum of the numbers of decks. *)
Theorem flatten_rows (events others : list EventRecord) :
  flatten (events ++ others) = flatten events ++ flatten others ∧
  (∀ event, flatten [event] = row_of event <$> decks event) ∧
  length (flatten events) = sum_list ((fun event => length (decks event)) <$> events).
Proof.
  split; [|split].
  - rewrite !flatten_flat_map. apply flat_map_app.
  - intros event. rewrite flatten_flat_map. simpl. by rewrite app_nil_r.
  - rewrite flatten_flat_map. induction events as [|event events IH]; simpl; [done|].
    by rewrite length_app, length_fmap, IH.
Qed.

Lemma save_data_rows (fmt : CsvFormat) (all_events_data : list EventRecord)
    (file : option string) :
  flatten all_events_data ≠ [] →
  save_data fmt all_events_data file =
    (Some (csv_text fmt true (flatten all_events_data)), Ok tt).
Proof.
  intros Hrows. unfold save_data.
  destruct all_events_data as [|event events]; [done|].
  unfold write_decks.
  destruct (flatten (event :: events)) as [|row rest]; [done|].
  destruct (100000 <? Z.of_nat (length (row :: rest)))%Z; [|done].
  by rewrite write_chunks_single by apply chunk_size_positive.
Qed.

(** X11. When at least one deck was collected, [save_data] ends normally
    and leaves in the output file the header line followed by one line per
    deck, in the order of the rows; what the file held before is gone. *)
Theorem save_data_overwrites (fmt : CsvFormat) (all_events_data : list EventRecord)
    (file : option string) :
  flatten all_events_data ≠ [] →
  save_data fmt all_events_data file =
    (Some (header_line fmt ++
           fold_right (fun row rest => row_line fmt row ++ rest) ""
                      (flatten all_events_data))%string,
     Ok tt).
Proof. apply save_data_rows. Qed.

Lemma save_data_overwrites_witness :
  save_data PlainCsv.format [SampleExport.no_decks; SampleExport.lyon] (Some "old content") =
    (Some (header_line PlainCsv.format ++
           fold_right (fun row rest => row_line PlainCsv.format row ++ rest) ""
                      (flatten [SampleExport.no_decks; SampleExport.lyon]))%string,
     Ok tt).
Proof.
  apply (save_data_overwrites PlainCsv.format [SampleExport.no_decks; SampleExport.lyon]
           (Some "old content")).
  vm_compute. discriminate.
Defined.

(** The batches taken from index [i] on make up the rows from [i] on, and
    each holds between one and [size] rows. *)
Lemma chunks_from (df : list DeckRow.t) (size fuel i : nat) :
  (0 < size)%nat → (length df - i ≤ fuel)%nat →
  concat ((fun j => take size (drop j df)) <$> range_from fuel i (length df) size) = drop i df ∧
  Forall (fun j => (1 ≤ length (take size (drop j df)) ≤ size)%nat)
         (range_from fuel i (length df) size).
Proof.
  intros Hsize. revert i. induction fuel as [|fuel IH]; intros i Hfuel.
  - simpl. rewrite drop_ge by lia. split; [done|constructor].
  - cbn [range_from]. destruct (Nat.ltb_spec i (length df)) as [Hin|Hout].
    + destruct (IH (i + size)%nat) as [Hconcat Hall]; [lia|].
      rewrite fmap_cons. cbn [concat]. rewrite Hconcat. split.
      * rewrite <- drop_drop. apply take_drop.
      * constructor; [|done]. rewrite length_take, length_drop. lia.
    + simpl. rewrite drop_ge by lia. split; [done|constructor].
Qed.

(** X12. The batches of the large-dataset path cut the frame into
    consecutive pieces: put end to end they give the frame back, and each
    holds at least one row and at most [chunk_size] rows. *)
Theorem chunks_cover_frame (df : list DeckRow.t) :
  concat ((fun i => take chunk_size (drop i df)) <$> py_range 0 (length df) chunk_size) = df ∧
  Forall (fun i => (1 ≤ length (take chunk_size (drop i df)) ≤ chunk_size)%nat)
         (py_range 0 (length df) chunk_size).
Proof.
  unfold py_range.
  destruct (chunks_from df chunk_size (length df) 0) as [Hconcat Hall];
    [apply chunk_size_positive|lia|].
  split; [exact Hconcat|exact Hall].
Qed.

(** ** [main] *)

Lemma argv_foldl (addresses : list string) (acc : list UrlInfo) (i : Z) :
  fst (foldl argv_step (acc, i) addresses) =
    acc ++ imap (fun k address =>
                   {| info_url := address;
                      info_description := ("URL " ++ PyStr.of_Z (i + Z.of_nat k))%string |})
                addresses.
Proof.
  revert acc i. induction addresses as [|address rest IH]; intros acc i.
  - simpl. by rewrite app_nil_r.
  - cbn [foldl argv_step]. rewrite IH, imap_cons, <- app_assoc. cbn [app].
    rewrite Z.add_0_r. do 2 f_equal. apply imap_ext. intros k x _. simpl.
    do 3 f_equal. lia.
Qed.

(** X13. With arguments after the program name the addresses scraped are
    exactly those arguments, in their order, the one at place [k] (from 0)
    being described as "URL k+1"; without any, the single default address
    of the Standard format is scraped. *)
Theorem urls_from_arguments (program : string) (arguments : list string) :
  urls_to_scrape [] = [ {| info_url := "https://www.mtgtop8.com/format?f=ST";
                           info_description := "Standard - Default View" |} ] ∧
  urls_to_scrape [program] = urls_to_scrape [] ∧
  (arguments ≠ [] →
   info_url <$> urls_to_scrape (program :: arguments) = arguments ∧
   ∀ k info, urls_to_scrape (program :: arguments) !! k = Some info →
             info_description info = ("URL " ++ PyStr.of_Z (Z.of_nat k + 1))%string).
Proof.
  split; [done|]. split; [done|]. intros Hsome.
  destruct arguments as [|first rest]; [done|].
  unfold urls_to_scrape. cbn [length Nat.ltb Nat.leb drop].
  rewrite argv_foldl. cbn [app]. split.
  - generalize (first :: rest) as l. generalize 1%Z as i.
    intros i l. revert i. induction l as [|x l IH]; intros i; [done|].
    rewrite imap_cons, fmap_cons. simpl. f_equal.
    etrans; [|apply (IH (i + 1)%Z)]. f_equal. apply imap_ext. intros k y _. simpl.
    do 3 f_equal. lia.
  - intros k info Hk. rewrite list_lookup_imap in Hk.
    destruct ((first :: rest) !! k); [|done]. injection Hk as <-. simpl.
    do 2 f_equal. lia.
Qed.

Lemma urls_from_arguments_witness :
  info_url <$> urls_to_scrape ["scraper.py"; "https://a/format?f=MO"; "https://a/format?f=LE"] =
    ["https://a/format?f=MO"; "https://a/format?f=LE"] ∧
  ∀ k info,
    urls_to_scrape ["scraper.py"; "https://a/format?f=MO"; "https://a/format?f=LE"] !! k
      = Some info →
    info_description info = ("URL " ++ PyStr.of_Z (Z.of_nat k + 1))%string.
Proof.
  destruct (urls_from_arguments "scraper.py" ["https://a/format?f=MO"; "https://a/format?f=LE"])
    as (_ & _ & Hargs).
  apply Hargs. discriminate.
Defined.

Section MainRun.

Context {World : Type} (browser : Browser World).





End MainRun.

(** A run on the sample site with two arguments: the event is processed once
    for each address and the file holds the header and four rows. *)
Example main_sample :
  main SampleSite.browser PlainCsv.format (fun w => (w, Raised BrowserFault)) (Z.to_nat 5000)
       (Ok SampleSite.blank) ["scraper.py"; "https://a/format?f=ST"; "https://a/format?f=ST"]
       (Some "old") =
    Some (Some SampleEvent.event_page,
          Some (csv_text PlainCsv.format true
                  (flatten (let r :=
                     {| event_name := "Grand Prix Lyon"; date := "01/02/23";
                        event_url := "event?e=2&f=ST"; total_decks := 2;
                        decks := [ {| position := 1; deck_name := "Mono Red";
                                      player := "Unknown"; deck_url := "?e=2&d=10&f=ST" |};
                                   {| position := 2; deck_name := "Esper Control";
                                      player := "Unknown"; deck_url := "?e=2&d=11&f=ST" |} ] |}
                   in [r; r]))),
          2%Z).
Proof. vm_compute. reflexivity. Qed.

(** ** The league filter *)

Lemma string_app_cons (c : ascii) (s t : string) :
  (String c s ++ t)%string = String c (s ++ t)%string.
Proof. reflexivity. Qed.

Lemma prefix_app (needle hay : string) :
  String.prefix needle hay = true ↔ ∃ after, hay = (needle ++ after)%string.
Proof.
  revert hay. induction needle as [|c needle IH]; intros hay.
  - split; [intros _; by exists hay|intros _; by destruct hay].
  - destruct hay as [|c' hay].
    + split; [discriminate|]. intros [after Hafter]. rewrite string_app_cons in Hafter.
      discriminate.
    + change (String.prefix (String c needle) (String c' hay))
        with (if ascii_dec c c' then String.prefix needle hay else false).
      destruct (ascii_dec c c') as [<-|Hne].
      * rewrite IH. split; intros [after Hafter]; exists after.
        -- rewrite string_app_cons. by rewrite Hafter.
        -- rewrite string_app_cons in Hafter. by injection Hafter.
      * split; [discriminate|]. intros [after Hafter].
        rewrite string_app_cons in Hafter. injection Hafter as ? _. done.
Qed.

(** The membership test holds exactly when the needle occurs in the
    string. *)
Lemma contains_app (needle hay : string) :
  PyStr.contains needle hay = true ↔
  ∃ before after, hay = (before ++ needle ++ after)%string.
Proof.
  induction hay as [|c hay IH]; cbn [PyStr.contains].
  - rewrite orb_false_r, prefix_app. split.
    + intros [after Hafter]. by exists "", after.
    + intros (before & after & Hhay). destruct before as [|c before].
      * by exists after.
      * rewrite string_app_cons in Hhay. discriminate.
  - rewrite orb_true_iff, prefix_app, IH. split.
    + intros [[after Hafter]|(before & after & Hhay)].
      * by exists "", after.
      * exists (String c before), after. rewrite string_app_cons. by rewrite Hhay.
    + intros (before & after & Hhay). destruct before as [|c' before].
      * left. by exists after.
      * right. rewrite string_app_cons in Hhay. injection Hhay as _ Hhay.
        by exists before, after.
Qed.

Lemma lower_app (s t : string) :
  PyStr.lower (s ++ t) = (PyStr.lower s ++ PyStr.lower t)%string.
Proof.
  induction s as [|c s IH]; [done|].
  rewrite string_app_cons. cbn [PyStr.lower]. rewrite string_app_cons. by rewrite IH.
Qed.

Lemma lower_split (s x y : string) :
  PyStr.lower s = (x ++ y)%string →
  ∃ s1 s2, s = (s1 ++ s2)%string ∧ PyStr.lower s1 = x ∧ PyStr.lower s2 = y.
Proof.
  revert s. induction x as [|c x IH]; intros s Hs.
  - by exists "", s.
  - rewrite string_app_cons in Hs. destruct s as [|c' s]; [discriminate|].
    cbn [PyStr.lower] in Hs. injection Hs as Hc Hs.
    destruct (IH _ Hs) as (s1 & s2 & -> & <- & <-).
    exists (String c' s1), s2. repeat split. cbn [PyStr.lower]. by rewrite Hc.
Qed.

(** X15. The league filter is a test on letters whatever their case: it
    fires exactly when the text can be cut into three parts, the middle one
    turning into "league" when upper-case letters are replaced by lower-case
    ones. *)
Theorem league_filter_any_case (event_text : string) :
  PyStr.contains "league" (PyStr.lower event_text) = true ↔
  ∃ before middle after,
    event_text = (before ++ middle ++ after)%string ∧ PyStr.lower middle = "league".
Proof.
  rewrite contains_app. split.
  - intros (x & z & Hlower).
    apply lower_split in Hlower as (before & rest & -> & _ & Hrest).
    apply lower_split in Hrest as (middle & after & -> & Hmiddle & _).
    by exists before, middle, after.
  - intros (before & middle & after & -> & Hmiddle).
    exists (PyStr.lower before), (PyStr.lower after).
    by rewrite !lower_app, Hmiddle.
Qed.

(** The example of the specification and two other spellings. *)
Example league_spellings :
  event_link_of "Standard League #42" (Some "event?e=3") "" = None ∧
  event_link_of "MTGO LEAGUE" (Some "event?e=3") "" = None ∧
  event_link_of "Colleagues Cup" (Some "event?e=3") "" = None ∧
  event_link_of "Grand Prix" (Some "event?e=3") "" =
    Some {| name := "Grand Prix"; url := "event?e=3" |}.
Proof. repeat split. Qed.

(** ** Faults in the page loop *)

Section LoopFaults.

Context {World : Type} (browser : Browser World).

(** X16. When the search for the navigation blocks raises, the pagination
    block reports no next page and clicks nothing; the page loop then ends
    on that page with the links gathered so far and those of the page,
    provided the page gave links or its inspection did not raise. *)
Theorem navigation_fault_ends_loop (w : World) (current_page : Z) (e : exn) :
  nav_divs (loaded browser w) = Raised e →
  go_to_next_page browser w current_page = (w, false) ∧
  ∀ fuel all_event_links,
    (get_event_links_from_current_page (loaded browser w) ≠ [] ∨
     structure_probe (loaded browser w) = Ok tt) →
    page_loop browser (S fuel) w current_page all_event_links =
      Some (w, Ok (current_page,
                   all_event_links ++ get_event_links_from_current_page (loaded browser w))).
Proof.
  intros Hnav.
  assert (Hnext : go_to_next_page browser w current_page = (w, false)).
  { unfold go_to_next_page, next_page_body, next_link_to_click, find_next_link.
    by rewrite Hnav. }
  split; [exact Hnext|]. intros fuel acc Hpage. cbn [page_loop]. rewrite Hnext.
  destruct (get_event_links_from_current_page (loaded browser w)) as [|link links].
  - destruct Hpage as [Hpage|Hprobe]; [done|]. rewrite Hprobe. simpl. by rewrite app_nil_r.
  - done.
Qed.



End LoopFaults.

Lemma navigation_fault_ends_loop_witness :
  go_to_next_page static_browser SampleFaults.broken_navigation 3 =
    (SampleFaults.broken_navigation, false) ∧
  page_loop static_browser 1 SampleFaults.broken_navigation 3 [] =
    Some (SampleFaults.broken_navigation,
          Ok (3%Z, [ {| name := "Grand Prix Lyon"; url := "event?e=2&f=ST" |} ])).
Proof.
  destruct (navigation_fault_ends_loop static_browser SampleFaults.broken_navigation 3
              BrowserFault eq_refl) as [Hnext Hloop].
  split; [exact Hnext|]. apply (Hloop 0%nat []). left. discriminate.
Defined.


(** ** Switched-off controls *)

Section SwitchedOff.

Context {World : Type} (browser : Browser World).

(** X18. On a document all of whose anchors, in the navigation blocks and
    in the document at large, have a class containing "Nav_PN_no", the
    pagination block reports no next page and leaves the browser as it was,
    however well the text or the address of an anchor matches. *)
Theorem switched_off_links_never_clicked (w : World) (current_page : Z) :
  (∀ divs d links a class,
     nav_divs (loaded browser w) = Ok divs → d ∈ divs → nav_anchors d = Ok links →
     a ∈ links → a_class a = Ok class →
     PyStr.contains "Nav_PN_no" (PyStr.or_empty class) = true) →
  (∀ links a class,
     anchors (loaded browser w) = Ok links → a ∈ links → a_class a = Ok class →
     PyStr.contains "Nav_PN_no" (PyStr.or_empty class) = true) →
  go_to_next_page browser w current_page = (w, false).
Proof.
  intros Hnav Hall. unfold go_to_next_page, next_page_body.
  destruct (next_link_to_click (loaded browser w)) as [[next_link|]|] eqn:Hfirst; [| |done].
  - exfalso.
    apply next_link_to_click_Some in Hfirst as (Hfound & _ & class & Hclass & Hmark).
    apply find_next_link_Some in Hfound
      as (divs & last_nav_div & links & before & after & Hdivs & Hlinks & -> & _ & _).
    assert (Hon : PyStr.contains "Nav_PN_no" (PyStr.or_empty class) = true).
    { apply (Hnav (divs ++ [last_nav_div]) last_nav_div (before ++ next_link :: after)
               next_link class); try done.
      - apply elem_of_app. right. by left.
      - apply elem_of_app. right. by left. }
    congruence.
  - destruct (page_link_to_click (loaded browser w) current_page) as [[page_link|]|] eqn:Hsecond;
      [| |done].
    + exfalso. unfold page_link_to_click in Hsecond.
      apply try_selectors_Some in Hsecond
        as (links & _ & Hlinks & Hin & _ & _ & text & address & class & _ & _ & Hclass & _ & Hmark & _).
      by rewrite (Hall links page_link class) in Hmark.
    + by destruct (list_pagination_links (loaded browser w)).
Qed.

End SwitchedOff.

Lemma switched_off_links_never_clicked_witness :
  go_to_next_page static_browser SampleLastPage.page 2 = (SampleLastPage.page, false).
Proof.
  apply (switched_off_links_never_clicked static_browser SampleLastPage.page 2).
  - intros divs d links a class [= <-] Hd Hlinks Ha Hclass.
    apply list_elem_of_singleton in Hd as ->. injection Hlinks as <-.
    apply list_elem_of_singleton in Ha as ->. injection Hclass as <-. reflexivity.
  - intros links a class [= <-] Ha Hclass.
    apply elem_of_cons in Ha as [->|Ha]; [injection Hclass as <-; reflexivity|].
    apply list_elem_of_singleton in Ha as ->. injection Hclass as <-. reflexivity.
Defined.
